(** * A shallow embedding of [embedded-hal-wrapper.rs]

    The embedded-hal I2C wrapper around the Hubris IPC I2C client:
    address types, the error classifier, the core adapter [HubrisI2c]
    (7-bit and emulated 10-bit addressing), the register fast path
    [RegisterOptimizedI2c], the retry decorator [RetryingI2c] and the
    scripted [MockI2c] harness.

    Bytes ([u8]) and 16-bit words ([u16]) are [N]; a Rust [as u8] cast is
    written out as a reduction modulo 256.  The device client is an
    abstract record of operations over an explicit device state, and every
    call the adapter makes on it is recorded in a log, so that the number
    and the shape of the round trips can be stated. *)

From Stdlib Require Import String List NArith Arith Lia Bool.
Import ListNotations.


Definition u8 := N.
Definition u16 := N.

(** Rust [x as u8]: truncation to the low 8 bits. *)
Definition as_u8 (x : N) : u8 := (x mod 256)%N.

(** Rust's [Result]. *)
Inductive Result (T E : Type) : Type :=
| Ok (v : T)
| Err (e : E).
Arguments Ok {T E} v.
Arguments Err {T E} e.

Definition map_err {T E F} (f : E -> F) (r : Result T E) : Result T F :=
  match r with Ok v => Ok v | Err e => Err (f e) end.

Definition map_ok {T U E} (f : T -> U) (r : Result T E) : Result U E :=
  match r with Ok v => Ok (f v) | Err e => Err e end.

Definition is_ok {T E} (r : Result T E) : bool :=
  match r with Ok _ => true | Err _ => false end.

(** ** Status codes of the device client ([drv_i2c_api::ResponseCode]).
    The enumeration lives outside this repository; the codes the wrapper
    names are listed, and [OtherCode] stands for each remaining variant. *)
Inductive ResponseCode : Type :=
| Success
| BadResponse
| NoDevice
| BusLocked
| BusTimeout
| BusError
| AddressNackSentEarly
| AddressNackSentLate
| DataNackSent
| ArbitrationLost
| OtherCode (n : N).

(** ** embedded-hal error kinds *)
Inductive NoAcknowledgeSource : Type :=
| Address
| Data
| Unknown.

Inductive ErrorKind : Type :=
| Bus
| ArbitrationLoss
| NoAcknowledge (source : NoAcknowledgeSource)
| Overrun
| Other.

(** ** [HubrisI2cError] *)
Record HubrisI2cError : Type := mkHubrisI2cError {
  response_code : ResponseCode;
  operation : string
}.

(** [impl embedded_hal::i2c::Error for HubrisI2cError]: [kind]. *)
Definition kind (e : HubrisI2cError) : ErrorKind :=
  match response_code e with
  | Success => Other
  | AddressNackSentEarly | AddressNackSentLate => NoAcknowledge Address
  | DataNackSent => NoAcknowledge Data
  | BusError => Bus
  | ArbitrationLost => ArbitrationLoss
  | _ => Other
  end.

Definition with_operation (e : HubrisI2cError) (op : string) : HubrisI2cError :=
  mkHubrisI2cError (response_code e) op.

Definition is_device_not_found (e : HubrisI2cError) : bool :=
  match response_code e with
  | AddressNackSentEarly | AddressNackSentLate | NoDevice => true
  | _ => false
  end.

Definition is_temporary (e : HubrisI2cError) : bool :=
  match response_code e with
  | BusLocked | BusTimeout | ArbitrationLost => true
  | _ => false
  end.

(** [retry_delay], in milliseconds. *)
Definition retry_delay (e : HubrisI2cError) : option nat :=
  match response_code e with
  | BusLocked => Some 10
  | BusTimeout => Some 100
  | ArbitrationLost => Some 1
  | _ => None
  end.

(** ** Address model *)
Record SevenBitAddr : Type := mkSevenBitAddr { sb_0 : u8 }.
Record TenBitAddr : Type := mkTenBitAddr { tb_0 : u16 }.

Inductive InvalidAddress : Type :=
| SevenBitRange (v : u8)
| TenBitRange (v : u16)
| Reserved (v : u8).

Definition SevenBitAddr_get (a : SevenBitAddr) : u8 := sb_0 a.
Definition TenBitAddr_get (a : TenBitAddr) : u16 := tb_0 a.

(** [SevenBitAddr::try_new] *)
Definition SevenBitAddr_try_new (addr : u8) : Result SevenBitAddr InvalidAddress :=
  if (0x7F <? addr)%N then Err (SevenBitRange addr)
  else if ((addr <? 0x08)%N || (0x77 <? addr)%N) then Err (Reserved addr)
  else Ok (mkSevenBitAddr addr).

(** [TenBitAddr::try_new] *)
Definition TenBitAddr_try_new (addr : u16) : Result TenBitAddr InvalidAddress :=
  if (0x3FF <? addr)%N then Err (TenBitRange addr)
  else Ok (mkTenBitAddr addr).

Definition SevenBitAddr_eqb (a b : SevenBitAddr) : bool := N.eqb (sb_0 a) (sb_0 b).

(** ** The device client ([drv_i2c_api::I2cDevice]), bound at construction
    to one target.  Each primitive runs against the device state; the read
    primitives fill the caller's buffer. *)
Record I2cDevice (S : Type) : Type := mkI2cDevice {
  dev_write : S -> list u8 -> S * Result unit ResponseCode;
  dev_read_into : S -> list u8 -> S * list u8 * Result nat ResponseCode;
  dev_read_reg_into : S -> u8 -> list u8 -> S * list u8 * Result nat ResponseCode
}.
Arguments dev_write {S} _ _ _.
Arguments dev_read_into {S} _ _ _.
Arguments dev_read_reg_into {S} _ _ _ _.

(** One call issued on the device client. *)
Inductive ClientCall : Type :=
| CallWrite (bytes : list u8)
| CallReadInto (len : nat)
| CallReadRegInto (reg : u8) (len : nat).

(** Embedded-hal [Operation]. *)
Inductive Operation : Type :=
| OpRead (buffer : list u8)
| OpWrite (data : list u8).

Section Adapter.
Context {S : Type} (dev : I2cDevice S).

(** Computations against the device: the device state is threaded, and
    the calls issued on the client are logged. *)
Definition M (A : Type) : Type := S -> S * list ClientCall * A.

Definition ret {A} (a : A) : M A := fun s => (s, [], a).

Definition bind {A B} (m : M A) (f : A -> M B) : M B :=
  fun s => let '(s1, l1, a) := m s in
           let '(s2, l2, b) := f a s1 in
           (s2, (l1 ++ l2)%list, b).

Local Notation "x <- m ;; k" := (bind m (fun x => k))
  (at level 61, m at next level, right associativity).
Local Notation "' p <- m ;; k" := (bind m (fun x => match x with p => k end))
  (at level 61, p pattern, m at next level, right associativity).

Definition client_write (bytes : list u8) : M (Result unit ResponseCode) :=
  fun s => let '(s', r) := dev_write dev s bytes in (s', [CallWrite bytes], r).

Definition client_read_into (buffer : list u8) : M (list u8 * Result nat ResponseCode) :=
  fun s => let '(s', buf, r) := dev_read_into dev s buffer in
           (s', [CallReadInto (length buffer)], (buf, r)).

Definition client_read_reg_into (reg : u8) (buffer : list u8)
  : M (list u8 * Result nat ResponseCode) :=
  fun s => let '(s', buf, r) := dev_read_reg_into dev s reg buffer in
           (s', [CallReadRegInto reg (length buffer)], (buf, r)).

Definition tag {T} (op : string) (r : Result T ResponseCode) : Result T HubrisI2cError :=
  map_err (fun response_code => mkHubrisI2cError response_code op) r.

Definition discard {E} (r : Result nat E) : Result unit E := map_ok (fun _ => tt) r.

(** *** [impl I2c<SevenBitAddr> for HubrisI2c] *)

Definition read7 (_address : SevenBitAddr) (buffer : list u8)
  : M (list u8 * Result unit HubrisI2cError) :=
  '(buf, r) <- client_read_into buffer ;;
  ret (buf, tag "read" (discard r)).

Definition write7 (_address : SevenBitAddr) (bytes : list u8)
  : M (Result unit HubrisI2cError) :=
  r <- client_write bytes ;;
  ret (tag "write" r).

Definition write_read7 (_address : SevenBitAddr) (bytes : list u8) (buffer : list u8)
  : M (list u8 * Result unit HubrisI2cError) :=
  if (length bytes =? 1)%nat then
    '(buf, r) <- client_read_reg_into (hd 0%N bytes) buffer ;;
    ret (buf, tag "write_read_reg" (discard r))
  else
    w <- client_write bytes ;;
    match w with
    | Err c => ret (buffer, Err (mkHubrisI2cError c "write_read_write_phase"))
    | Ok _ =>
        '(buf, r) <- client_read_into buffer ;;
        ret (buf, tag "write_read_read_phase" (discard r))
    end.

Fixpoint transaction7 (address : SevenBitAddr) (operations : list Operation)
  : M (list Operation * Result unit HubrisI2cError) :=
  match operations with
  | [] => ret ([], Ok tt)
  | OpRead buffer :: rest =>
      '(buf, r) <- read7 address buffer ;;
      match r with
      | Err err => ret (OpRead buf :: rest, Err (with_operation err "transaction_read"))
      | Ok _ =>
          '(rest', r') <- transaction7 address rest ;;
          ret (OpRead buf :: rest', r')
      end
  | OpWrite data :: rest =>
      r <- write7 address data ;;
      match r with
      | Err err => ret (OpWrite data :: rest, Err (with_operation err "transaction_write"))
      | Ok _ =>
          '(rest', r') <- transaction7 address rest ;;
          ret (OpWrite data :: rest', r')
      end
  end.

(** *** [impl I2c<TenBitAddr> for HubrisI2c]: emulated 10-bit addressing *)

Definition addr_high (address : TenBitAddr) : u8 :=
  N.lor 0xF0 (as_u8 (N.land (N.shiftr (tb_0 address) 7) 0x06)).

Definition addr_low (address : TenBitAddr) : u8 :=
  as_u8 (N.land (tb_0 address) 0xFF).

Definition read10 (address : TenBitAddr) (buffer : list u8)
  : M (list u8 * Result unit HubrisI2cError) :=
  let write_data := [addr_high address; addr_low address] in
  w <- client_write write_data ;;
  match w with
  | Err c => ret (buffer, Err (mkHubrisI2cError c "10bit_address_setup"))
  | Ok _ =>
      '(buf, r) <- client_read_into buffer ;;
      ret (buf, tag "10bit_read" (discard r))
  end.

(** [heapless::Vec::<u8, 258>::push]: fails once the vector is full. *)
Definition HEAPLESS_CAP : nat := 258.

Definition hv_push (v : list u8) (x : u8) : Result (list u8) u8 :=
  if (length v <? HEAPLESS_CAP)%nat then Ok (v ++ [x]) else Err x.

Definition overflow_error : HubrisI2cError :=
  mkHubrisI2cError BadResponse "10bit_write_buffer_overflow".

(** The [for &byte in bytes { write_data.push(byte)...? }] loop. *)
Fixpoint push_all (v : list u8) (bytes : list u8) : Result (list u8) HubrisI2cError :=
  match bytes with
  | [] => Ok v
  | b :: rest =>
      match hv_push v b with
      | Err _ => Err overflow_error
      | Ok v' => push_all v' rest
      end
  end.

Definition write10 (address : TenBitAddr) (bytes : list u8)
  : M (Result unit HubrisI2cError) :=
  match hv_push [] (addr_high address) with
  | Err _ => ret (Err overflow_error)
  | Ok v1 =>
      match hv_push v1 (addr_low address) with
      | Err _ => ret (Err overflow_error)
      | Ok v2 =>
          match push_all v2 bytes with
          | Err e => ret (Err e)
          | Ok write_data =>
              r <- client_write write_data ;;
              ret (tag "10bit_write" r)
          end
      end
  end.

Definition write_read10 (address : TenBitAddr) (bytes : list u8) (buffer : list u8)
  : M (list u8 * Result unit HubrisI2cError) :=
  w <- write10 address bytes ;;
  match w with
  | Err e => ret (buffer, Err e)
  | Ok _ => read10 address buffer
  end.

Fixpoint transaction10 (address : TenBitAddr) (operations : list Operation)
  : M (list Operation * Result unit HubrisI2cError) :=
  match operations with
  | [] => ret ([], Ok tt)
  | OpRead buffer :: rest =>
      '(buf, r) <- read10 address buffer ;;
      match r with
      | Err err => ret (OpRead buf :: rest, Err err)
      | Ok _ =>
          '(rest', r') <- transaction10 address rest ;;
          ret (OpRead buf :: rest', r')
      end
  | OpWrite data :: rest =>
      r <- write10 address data ;;
      match r with
      | Err err => ret (OpWrite data :: rest, Err err)
      | Ok _ =>
          '(rest', r') <- transaction10 address rest ;;
          ret (OpWrite data :: rest', r')
      end
  end.

(** *** [impl I2c<SevenBitAddr> for RegisterOptimizedI2c] *)

Definition ro_read (address : SevenBitAddr) (buffer : list u8) := read7 address buffer.
Definition ro_write (address : SevenBitAddr) (bytes : list u8) := write7 address bytes.

Definition ro_write_read (address : SevenBitAddr) (bytes : list u8) (buffer : list u8)
  : M (list u8 * Result unit HubrisI2cError) :=
  if (length bytes =? 1)%nat then
    '(buf, r) <- client_read_reg_into (hd 0%N bytes) buffer ;;
    ret (buf, tag "optimized_write_read" (discard r))
  else write_read7 address bytes buffer.

Definition ro_transaction (address : SevenBitAddr) (operations : list Operation)
  : M (list Operation * Result unit HubrisI2cError) :=
  match operations with
  | [OpWrite write_data; OpRead read_buffer] =>
      if (length write_data =? 1)%nat then
        '(buf, r) <- client_read_reg_into (hd 0%N write_data) read_buffer ;;
        ret ([OpWrite write_data; OpRead buf], tag "optimized_transaction" (discard r))
      else transaction7 address operations
  | _ => transaction7 address operations
  end.

End Adapter.

(** ** [RetryingI2c::retry_operation]

    The wrapped closure [operation] is [FnMut(&mut I2C) -> Result<R, E>];
    its environment (the inner component and any captured buffers) is the
    explicit state [I2C].  Each call of [operation] and each
    [sys::sleep_for] is recorded as an event. *)
Inductive RetryEvent : Type :=
| Attempted (attempt : nat)
| Slept (ms : nat).

(** The arm [ErrorKind::ArbitrationLoss | ErrorKind::Other] of the match. *)
Definition retryable_kind (k : ErrorKind) : bool :=
  match k with
  | ArbitrationLoss | Other => true
  | _ => false
  end.

Section Retry.
Context {I2C R E : Type} (error_kind : E -> ErrorKind)
        (operation : I2C -> I2C * Result R E).

(** The loop [for attempt in 0..=max_retries]: [iters] is the number of
    iterations left.  The result is [None] when [last_error.unwrap()]
    panics. *)
Fixpoint retry_loop (iters attempt max_retries : nat) (inner : I2C)
         (last_error : option E) : I2C * list RetryEvent * option (Result R E) :=
  match iters with
  | O => (inner, [], match last_error with
                     | Some e => Some (Err e)
                     | None => None
                     end)
  | S iters' =>
      let '(inner1, r) := operation inner in
      match r with
      | Ok result => (inner1, [Attempted attempt], Some (Ok result))
      | Err error =>
          if retryable_kind (error_kind error) then
            if (attempt <? max_retries)%nat then
              (* [10 * (attempt + 1) as u64], with [attempt : u8] *)
              let '(i2, ev, res) :=
                retry_loop iters' (S attempt) max_retries inner1 (Some error) in
              (i2, Attempted attempt :: Slept (10 * ((attempt + 1) mod 256)) :: ev, res)
            else
              let '(i2, ev, res) :=
                retry_loop iters' (S attempt) max_retries inner1 (Some error) in
              (i2, Attempted attempt :: ev, res)
          else (inner1, [Attempted attempt], Some (Err error))
      end
  end.

Definition retry_operation (max_retries : nat) (inner : I2C)
  : I2C * list RetryEvent * option (Result R E) :=
  retry_loop (S max_retries) 0 max_retries inner None.

End Retry.

(** ** The [MockI2c] verification harness *)
Inductive MockOperation : Type :=
| MockRead (address : SevenBitAddr) (response : list u8)
| MockWrite (address : SevenBitAddr) (expected_data : list u8)
| MockWriteRead (address : SevenBitAddr) (expected_write : list u8) (read_response : list u8).

Record MockI2c : Type := mkMockI2c {
  expected_operations : list MockOperation;
  operation_index : nat
}.

Record MockI2cError : Type := mkMockI2cError { message : string }.

Definition mock_error_kind (_ : MockI2cError) : ErrorKind := Other.

Definition bytes_eqb (a b : list u8) : bool :=
  if list_eq_dec N.eq_dec a b then true else false.

Definition mock_advance (m : MockI2c) : MockI2c :=
  mkMockI2c (expected_operations m) (S (operation_index m)).

Definition mock_fail {B} (m : MockI2c) (buffer : B) (msg : string)
  : MockI2c * B * Result unit MockI2cError :=
  (m, buffer, Err (mkMockI2cError msg)).

Definition mock_read (m : MockI2c) (address : SevenBitAddr) (buffer : list u8)
  : MockI2c * list u8 * Result unit MockI2cError :=
  if (length (expected_operations m) <=? operation_index m)%nat then
    mock_fail m buffer "Unexpected read operation"
  else
    match nth_error (expected_operations m) (operation_index m) with
    | Some (MockRead expected_addr response) =>
        if negb (SevenBitAddr_eqb expected_addr address) then
          mock_fail m buffer "Read address mismatch"
        else if negb (length buffer =? length response)%nat then
          mock_fail m buffer "Read buffer size mismatch"
        else (mock_advance m, response, Ok tt)
    | _ => mock_fail m buffer "Expected read operation"
    end.

Definition mock_write (m : MockI2c) (address : SevenBitAddr) (bytes : list u8)
  : MockI2c * Result unit MockI2cError :=
  if (length (expected_operations m) <=? operation_index m)%nat then
    (m, Err (mkMockI2cError "Unexpected write operation"))
  else
    match nth_error (expected_operations m) (operation_index m) with
    | Some (MockWrite expected_addr expected_data) =>
        if negb (SevenBitAddr_eqb expected_addr address) then
          (m, Err (mkMockI2cError "Write address mismatch"))
        else if negb (bytes_eqb bytes expected_data) then
          (m, Err (mkMockI2cError "Write data mismatch"))
        else (mock_advance m, Ok tt)
    | _ => (m, Err (mkMockI2cError "Expected write operation"))
    end.

Definition mock_write_read (m : MockI2c) (address : SevenBitAddr) (bytes : list u8)
           (buffer : list u8) : MockI2c * list u8 * Result unit MockI2cError :=
  if (length (expected_operations m) <=? operation_index m)%nat then
    mock_fail m buffer "Unexpected write_read operation"
  else
    match nth_error (expected_operations m) (operation_index m) with
    | Some (MockWriteRead expected_addr expected_write read_response) =>
        if negb (SevenBitAddr_eqb expected_addr address) then
          mock_fail m buffer "WriteRead address mismatch"
        else if negb (bytes_eqb bytes expected_write) then
          mock_fail m buffer "WriteRead write data mismatch"
        else if negb (length buffer =? length read_response)%nat then
          mock_fail m buffer "WriteRead read buffer size mismatch"
        else (mock_advance m, read_response, Ok tt)
    | _ => mock_fail m buffer "Expected write_read operation"
    end.

Fixpoint mock_transaction (m : MockI2c) (address : SevenBitAddr) (operations : list Operation)
  : MockI2c * list Operation * Result unit MockI2cError :=
  match operations with
  | [] => (m, [], Ok tt)
  | OpRead buffer :: rest =>
      let '(m1, buf, r) := mock_read m address buffer in
      match r with
      | Err e => (m1, OpRead buf :: rest, Err e)
      | Ok _ => let '(m2, rest', r') := mock_transaction m1 address rest in
                (m2, OpRead buf :: rest', r')
      end
  | OpWrite data :: rest =>
      let '(m1, r) := mock_write m address data in
      match r with
      | Err e => (m1, OpWrite data :: rest, Err e)
      | Ok _ => let '(m2, rest', r') := mock_transaction m1 address rest in
                (m2, OpWrite data :: rest', r')
      end
  end.

(** ** Auxiliary definitions for the properties *)

Definition calls_of {S A} (x : S * list ClientCall * A) : list ClientCall := snd (fst x).


(** A device whose register read fails while plain writes and reads succeed. *)
Definition regfail_dev : I2cDevice unit :=
  mkI2cDevice unit
    (fun s _ => (s, Ok tt))
    (fun s buf => (s, map (fun _ => 0%N) buf, Ok (length buf)))
    (fun s _ buf => (s, buf, Err BusLocked)).

(** A register-pointer device: a write selects a register, a read returns
    the selected register's number, and the register read does both. *)
Definition pointer_dev : I2cDevice N :=
  mkI2cDevice N
    (fun _ bytes => (hd 0%N bytes, Ok tt))
    (fun p buf => (p, map (fun _ => p) buf, Ok (length buf)))
    (fun _ reg buf => (reg, map (fun _ => reg) buf, Ok (length buf))).

(** A device on which every call succeeds. *)
Definition ok_dev : I2cDevice unit :=
  mkI2cDevice unit
    (fun s _ => (s, Ok tt))
    (fun s buf => (s, buf, Ok (length buf)))
    (fun s _ buf => (s, buf, Ok (length buf))).

(** A device on which every call fails with [BusLocked]. *)
Definition busy_dev : I2cDevice unit :=
  mkI2cDevice unit
    (fun s _ => (s, Err BusLocked))
    (fun s buf => (s, buf, Err BusLocked))
    (fun s _ buf => (s, buf, Err BusLocked)).

(** The register-read primitive of [dev] behaves as a write of the
    register byte followed by a plain read. *)
Definition reg_read_is_write_then_read {S} (dev : I2cDevice S) : Prop :=
  forall s reg buf,
    dev_read_reg_into dev s reg buf =
      let '(s1, w) := dev_write dev s [reg] in
      match w with
      | Err c => (s1, buf, Err c)
      | Ok _ => dev_read_into dev s1 buf
      end.

(** The shape the fast path recognises: [Write(1 byte), Read(n bytes)]. *)
Definition fast_path_shape (operations : list Operation) : bool :=
  match operations with
  | [OpWrite w; OpRead _] => (length w =? 1)%nat
  | _ => false
  end.

Definition result_code {T} (r : Result T HubrisI2cError) : Result T ResponseCode :=
  map_err response_code r.

Definition is_reg_read_call (c : ClientCall) : bool :=
  match c with CallReadRegInto _ _ => true | _ => false end.


(** The loop shared by the two [transaction] methods of [HubrisI2c],
    parameterised by the single-operation methods and by the relabelling
    of their errors. *)
Section TransactionLoop.
Context {S : Type} {Addr : Type}
        (rd : Addr -> list u8 -> @M S (list u8 * Result unit HubrisI2cError))
        (wr : Addr -> list u8 -> @M S (Result unit HubrisI2cError))
        (relabel_rd relabel_wr : HubrisI2cError -> HubrisI2cError).

Local Notation "' p <- m ;; c" := (bind m (fun x => match x with p => c end))
  (at level 61, p pattern, m at next level, right associativity).

Fixpoint transaction_loop (address : Addr) (operations : list Operation)
  : @M S (list Operation * Result unit HubrisI2cError) :=
  match operations with
  | [] => ret ([], Ok tt)
  | OpRead buffer :: rest =>
      '(buf, r) <- rd address buffer ;;
      match r with
      | Err err => ret (OpRead buf :: rest, Err (relabel_rd err))
      | Ok _ =>
          '(rest', r') <- transaction_loop address rest ;;
          ret (OpRead buf :: rest', r')
      end
  | OpWrite data :: rest =>
      bind (wr address data) (fun r =>
      match r with
      | Err err => ret (OpWrite data :: rest, Err (relabel_wr err))
      | Ok _ =>
          '(rest', r') <- transaction_loop address rest ;;
          ret (OpWrite data :: rest', r')
      end)
  end.

End TransactionLoop.

Section RetryModel.
Context {I2C R E : Type} (error_kind : E -> ErrorKind)
        (operation : I2C -> I2C * Result R E).

(** The state of the wrapped component after [k] attempts. *)
Fixpoint state_after (k : nat) (s : I2C) : I2C :=
  match k with
  | O => s
  | S k' => state_after k' (fst (operation s))
  end.

Definition fails_retryably (s : I2C) : Prop :=
  exists e, snd (operation s) = Err e /\ retryable_kind (error_kind e) = true.

(** The events of [k] failed attempts numbered from [i], each followed
    by the linear backoff [10ms * (attempt + 1)]. *)
Definition retry_prefix_from (i k : nat) : list RetryEvent :=
  flat_map (fun j => [Attempted j; Slept (10 * (j + 1))]) (seq i k).

Definition prepend (p : list RetryEvent) (x : I2C * list RetryEvent * option (Result R E))
  : I2C * list RetryEvent * option (Result R E) :=
  (fst (fst x), (p ++ snd (fst x))%list, snd x).

End RetryModel.

(** Wrapped operations over a call counter: always busy, always
    address-nacked, and arbitration lost once and then successful. *)
Definition busy_op (n : nat) : nat * Result unit HubrisI2cError :=
  (S n, Err (mkHubrisI2cError BusLocked "read")).

Definition nack_op (n : nat) : nat * Result unit HubrisI2cError :=
  (S n, Err (mkHubrisI2cError AddressNackSentEarly "read")).

Definition flaky_op (n : nat) : nat * Result unit HubrisI2cError :=
  if (n =? 0)%nat then (S n, Err (mkHubrisI2cError ArbitrationLost "read"))
  else (S n, Ok tt).

(** The next expectation is a [Read] from [address] whose canned
    response has the buffer's length. *)
Definition read_matches (m : MockI2c) (address : SevenBitAddr) (buffer : list u8) : bool :=
  match nth_error (expected_operations m) (operation_index m) with
  | Some (MockRead ea response) =>
      SevenBitAddr_eqb ea address && (length buffer =? length response)%nat
  | _ => false
  end.

Definition write_matches (m : MockI2c) (address : SevenBitAddr) (bytes : list u8) : bool :=
  match nth_error (expected_operations m) (operation_index m) with
  | Some (MockWrite ea expected_data) =>
      SevenBitAddr_eqb ea address && bytes_eqb bytes expected_data
  | _ => false
  end.

Definition write_read_matches (m : MockI2c) (address : SevenBitAddr)
           (bytes buffer : list u8) : bool :=
  match nth_error (expected_operations m) (operation_index m) with
  | Some (MockWriteRead ea expected_write read_response) =>
      SevenBitAddr_eqb ea address && bytes_eqb bytes expected_write
      && (length buffer =? length read_response)%nat
  | _ => false
  end.

(** The canned response of the next expectation. *)
Definition next_response (m : MockI2c) : list u8 :=
  match nth_error (expected_operations m) (operation_index m) with
  | Some (MockRead _ response) => response
  | Some (MockWriteRead _ _ read_response) => read_response
  | _ => []
  end.

(** ** The harness's setup and teardown ([MockI2c::new], [expect_*],
    [verify_complete]).  The expectation list is a [heapless::Vec] of
    capacity 32 and each byte vector one of capacity 256; the [unwrap] of a
    failed push or extend panics, written [None]. *)
Definition MOCK_OPS_CAP : nat := 32.
Definition MOCK_BUF_CAP : nat := 256.

Definition mock_new : MockI2c := mkMockI2c [] 0.

(** [heapless::Vec::<u8, 256>::new().extend_from_slice(data).unwrap()] *)
Definition mock_bytes (data : list u8) : option (list u8) :=
  if (length data <=? MOCK_BUF_CAP)%nat then Some data else None.

(** [self.expected_operations.push(op).unwrap()] *)
Definition mock_push (m : MockI2c) (op : MockOperation) : option MockI2c :=
  if (length (expected_operations m) <? MOCK_OPS_CAP)%nat
  then Some (mkMockI2c (expected_operations m ++ [op]) (operation_index m))
  else None.

Definition expect_write (m : MockI2c) (address : SevenBitAddr) (data : list u8)
  : option MockI2c :=
  match mock_bytes data with
  | None => None
  | Some expected_data => mock_push m (MockWrite address expected_data)
  end.

Definition expect_read (m : MockI2c) (address : SevenBitAddr) (response : list u8)
  : option MockI2c :=
  match mock_bytes response with
  | None => None
  | Some response_data => mock_push m (MockRead address response_data)
  end.

Definition expect_write_read (m : MockI2c) (address : SevenBitAddr)
           (write_data read_response : list u8) : option MockI2c :=
  match mock_bytes write_data with
  | None => None
  | Some expected_write =>
      match mock_bytes read_response with
      | None => None
      | Some response => mock_push m (MockWriteRead address expected_write response)
      end
  end.

(** [verify_complete]: [true] when its [assert_eq!] passes. *)
Definition verify_complete (m : MockI2c) : bool :=
  (operation_index m =? length (expected_operations m))%nat.

(** [RetryingI2c<MockI2c>::write]: the closure [|i2c| i2c.write(address, bytes)]. *)
Definition retrying_mock_write (max_retries : nat) (m : MockI2c)
           (address : SevenBitAddr) (bytes : list u8)
  : MockI2c * list RetryEvent * option (Result unit MockI2cError) :=
  retry_operation mock_error_kind (fun i2c => mock_write i2c address bytes) max_retries m.

(** Replaying a script against the harness: each expectation is answered
    by the call it describes (a read or write-read into a zeroed buffer of
    the response's length); the flag records that every call succeeded. *)
Definition mock_call_of (e : MockOperation) (m : MockI2c) : MockI2c * bool :=
  match e with
  | MockRead a response =>
      let '(m', _, r) := mock_read m a (repeat 0%N (length response)) in (m', is_ok r)
  | MockWrite a data =>
      let '(m', r) := mock_write m a data in (m', is_ok r)
  | MockWriteRead a w response =>
      let '(m', _, r) := mock_write_read m a w (repeat 0%N (length response)) in
      (m', is_ok r)
  end.

Fixpoint mock_replay (script : list MockOperation) (m : MockI2c) : MockI2c * bool :=
  match script with
  | [] => (m, true)
  | e :: rest =>
      let '(m1, ok1) := mock_call_of e m in
      let '(m2, ok2) := mock_replay rest m1 in
      (m2, ok1 && ok2)
  end.

(** The payload of each [Write] element, [None] for a [Read] element. *)
Definition write_payloads (operations : list Operation) : list (option (list u8)) :=
  map (fun o => match o with OpRead _ => None | OpWrite d => Some d end) operations.

(** The 10-bit address a header [hi; lo] designates: bits 9-8 from bits
    2-1 of [hi], bits 7-0 from [lo]. *)
Definition tenbit_header_address (hi lo : u8) : u16 :=
  N.lor (N.shiftl (N.land (N.shiftr hi 1) 3) 8) lo.

Definition tenbit_roundtrip_check (n : nat) : bool :=
  let a := mkTenBitAddr (N.of_nat n) in
  N.eqb (tenbit_header_address (addr_high a) (addr_low a)) (N.of_nat n).

(** * Properties *)

(** ** Helper lemmas *)

Lemma hv_push_ok (v : list u8) (x : u8) :
  (length v < HEAPLESS_CAP)%nat -> hv_push v x = Ok (v ++ [x]).
Proof.
  intros H. unfold hv_push. apply Nat.ltb_lt in H. now rewrite H.
Qed.

Lemma hv_push_full (v : list u8) (x : u8) :
  (HEAPLESS_CAP <= length v)%nat -> hv_push v x = Err x.
Proof.
  intros H. unfold hv_push. apply Nat.ltb_ge in H. now rewrite H.
Qed.

Lemma push_all_fits (v bytes : list u8) :
  (length v + length bytes <= HEAPLESS_CAP)%nat -> push_all v bytes = Ok (v ++ bytes).
Proof.
  revert v. induction bytes as [|b rest IH]; intros v H; simpl.
  - now rewrite app_nil_r.
  - simpl in H. rewrite hv_push_ok by lia.
    rewrite IH by (rewrite length_app; simpl; lia).
    now rewrite <- app_assoc.
Qed.

Lemma push_all_overflows (v bytes : list u8) :
  (length v <= HEAPLESS_CAP)%nat -> (HEAPLESS_CAP < length v + length bytes)%nat ->
  push_all v bytes = Err overflow_error.
Proof.
  revert v. induction bytes as [|b rest IH]; intros v Hv H; simpl in *.
  - lia.
  - destruct (Nat.eq_dec (length v) HEAPLESS_CAP) as [E|E].
    + rewrite hv_push_full by lia. reflexivity.
    + rewrite hv_push_ok by lia. apply IH; rewrite length_app; simpl; lia.
Qed.

Lemma as_u8_land_small (x m : N) : (m <= 255)%N -> N.land m 255 = m ->
  as_u8 (N.land x m) = N.land x m.
Proof.
  intros _ Hm. unfold as_u8.
  change 256%N with (2 ^ 8)%N. rewrite <- N.land_ones.
  rewrite <- N.land_assoc. change (N.ones 8) with 255%N. now rewrite Hm.
Qed.

Lemma addr_high_eq (a : TenBitAddr) :
  addr_high a = N.lor 0xF0 (N.land (N.shiftr (tb_0 a) 7) 0x06).
Proof.
  unfold addr_high. rewrite as_u8_land_small; [reflexivity | lia | reflexivity].
Qed.

Lemma addr_low_eq (a : TenBitAddr) : addr_low a = N.land (tb_0 a) 0xFF.
Proof.
  unfold addr_low. rewrite as_u8_land_small; [reflexivity | lia | reflexivity].
Qed.

(** ** C8 *)

(** C8: the classifier [kind] is a total function of the error whose value
    is always one of address-nack, data-nack, bus-error, arbitration-loss
    or other, the nominal [Success] code is classified as other, and no
    error is both [is_device_not_found] and [is_temporary]. *)
Theorem C8_classifier_total_exclusive (e : HubrisI2cError) :
  (kind e = NoAcknowledge Address \/ kind e = NoAcknowledge Data \/
   kind e = Bus \/ kind e = ArbitrationLoss \/ kind e = Other)
  /\ kind (mkHubrisI2cError Success (operation e)) = Other
  /\ (is_device_not_found e && is_temporary e) = false.
Proof.
  destruct e as [c op]; unfold kind, is_device_not_found, is_temporary; simpl.
  destruct c; simpl; intuition auto.
Qed.

(** ** C7 *)

(** C7: [SevenBitAddr::try_new a] accepts exactly the addresses in
    [0x08, 0x77], and [get] gives the address back; it rejects [0x00-0x07]
    and [0x78-0x7F] with [Reserved a] and everything above [0x7F] with
    [SevenBitRange a].  The function is pure, so rejection has no effect. *)
Theorem C7_sevenbit_try_new (a : u8) :
  ((0x08 <= a <= 0x77)%N ->
     exists x, SevenBitAddr_try_new a = Ok x /\ SevenBitAddr_get x = a)
  /\ ((a <= 0x07)%N \/ (0x78 <= a <= 0x7F)%N ->
     SevenBitAddr_try_new a = Err (Reserved a))
  /\ ((0x7F < a)%N -> SevenBitAddr_try_new a = Err (SevenBitRange a)).
Proof.
  unfold SevenBitAddr_try_new.
  destruct (N.ltb_spec 0x7F a); destruct (N.ltb_spec a 0x08);
    destruct (N.ltb_spec 0x77 a); simpl; repeat split; intros; try lia;
    eauto.
Qed.

(** ** C6 *)

(** C6: in 7-bit mode [read] and [write] do not depend on the per-call
    address: for any two addresses and the same buffer, bytes and device
    state they issue the same client calls and give the same result. *)
Theorem C6_sevenbit_address_ignored {S} (dev : I2cDevice S)
  (a1 a2 : SevenBitAddr) (buffer bytes : list u8) (s : S) :
  read7 dev a1 buffer s = read7 dev a2 buffer s
  /\ write7 dev a1 bytes s = write7 dev a2 bytes s.
Proof. split; reflexivity. Qed.

(** ** C4 *)

(** C4: the 10-bit write emulation.  A payload of at most 256 bytes goes
    out as exactly one client write of the header
    [0xF0 | ((a >> 7) & 0x06); a & 0xFF] followed by the payload (for
    address 0x123 and payload [0xAA] the buffer is [0xF2; 0x23; 0xAA]);
    a longer payload gives the buffer-overflow error, of kind other,
    and issues no client call. *)
Theorem C4_tenbit_write_emulation {S} (dev : I2cDevice S)
  (a : TenBitAddr) (p : list u8) (s : S) :
  let header := [N.lor 0xF0 (N.land (N.shiftr (tb_0 a) 7) 0x06);
                 N.land (tb_0 a) 0xFF] in
  ((length p <= 256)%nat ->
     write10 dev a p s =
       (fst (dev_write dev s (header ++ p)), [CallWrite (header ++ p)],
        tag "10bit_write" (snd (dev_write dev s (header ++ p)))))
  /\ ((256 < length p)%nat ->
     write10 dev a p s =
       (s, [], Err (mkHubrisI2cError BadResponse "10bit_write_buffer_overflow"))
     /\ kind overflow_error = Other)
  /\ write10 dev (mkTenBitAddr 0x123%N) [0xAA%N] s =
       (fst (dev_write dev s [0xF2; 0x23; 0xAA]), [CallWrite [0xF2; 0x23; 0xAA]],
        tag "10bit_write" (snd (dev_write dev s [0xF2; 0x23; 0xAA])))%N.
Proof.
  intros header. split; [|split].
  - intros Hp. unfold write10.
    rewrite (hv_push_ok []) by (simpl; unfold HEAPLESS_CAP; lia). simpl app.
    rewrite hv_push_ok by (simpl; unfold HEAPLESS_CAP; lia). simpl app.
    rewrite push_all_fits by (simpl; unfold HEAPLESS_CAP; lia).
    rewrite addr_high_eq, addr_low_eq.
    unfold bind, client_write, ret, header; simpl.
    destruct (dev_write dev s _); reflexivity.
  - intros Hp. unfold write10.
    rewrite (hv_push_ok []) by (simpl; unfold HEAPLESS_CAP; lia). simpl app.
    rewrite hv_push_ok by (simpl; unfold HEAPLESS_CAP; lia). simpl app.
    rewrite push_all_overflows by (simpl; unfold HEAPLESS_CAP; lia).
    split; reflexivity.
  - unfold write10, bind, client_write, ret; simpl.
    destruct (dev_write dev s _); reflexivity.
Qed.

(** ** Running adapter computations *)

Lemma bind_calls {S A B} (m : M A) (f : A -> M B) (s : S) :
  calls_of (bind m f s) =
    (calls_of (m s) ++ calls_of (f (snd (m s)) (fst (fst (m s)))))%list.
Proof.
  unfold bind, calls_of. destruct (m s) as [[s1 l1] a]; simpl.
  destruct (f a s1) as [[s2 l2] b]. reflexivity.
Qed.

(** Case analysis on the outcome of every device primitive in the goal. *)
Ltac split_device :=
  repeat match goal with
  | |- context [dev_write ?d ?s ?b] =>
      let w := fresh "w" in let sw := fresh "sw" in
      destruct (dev_write d s b) as [sw [w|w]]
  | |- context [dev_read_into ?d ?s ?b] =>
      let r := fresh "r" in let sr := fresh "sr" in let br := fresh "br" in
      destruct (dev_read_into d s b) as [[sr br] [r|r]]
  | |- context [dev_read_reg_into ?d ?s ?g ?b] =>
      let r := fresh "r" in let sr := fresh "sr" in let br := fresh "br" in
      destruct (dev_read_reg_into d s g b) as [[sr br] [r|r]]
  end.

Ltac run_adapter :=
  unfold ro_transaction, transaction7, write_read7, read7, write7, read10, write10,
    write_read10, bind, ret, client_write, client_read_into, client_read_reg_into,
    tag, discard, map_err, map_ok, with_operation in *; simpl in *.

(** ** C1 *)

(** C1 (as stated, refuted): on a device whose register read fails while
    plain writes and reads succeed, the fast path's transaction
    [Write([0x10]), Read(4 bytes)] fails where the Core Adapter's
    sequential transaction succeeds. *)
Lemma C1_counterexample :
  is_ok (snd (snd (ro_transaction regfail_dev (mkSevenBitAddr 0x48%N)
                     [OpWrite [0x10%N]; OpRead [0; 0; 0; 0]%N] tt)))
  <> is_ok (snd (snd (transaction7 regfail_dev (mkSevenBitAddr 0x48%N)
                     [OpWrite [0x10%N]; OpRead [0; 0; 0; 0]%N] tt))).
Proof. vm_compute. discriminate. Qed.

(** C1 (amended): the fast path turns [Write([w]), Read(buf)] into the
    register read, with exactly the outcome of the Core Adapter's
    [write_read(addr, [w], buf)] except for the error label; it agrees
    with the Core Adapter's sequential transaction (device state, output
    bytes and status code) on every device whose register read behaves as
    a write of the register byte followed by a read; every other shape is
    the Core Adapter's transaction unchanged. *)
Theorem C1_fast_path_transaction {S} (dev : I2cDevice S) (a : SevenBitAddr) :
  (forall w buf s,
     ro_transaction dev a [OpWrite [w]; OpRead buf] s =
       let '(s', l, (buf', r)) := write_read7 dev a [w] buf s in
       (s', l, ([OpWrite [w]; OpRead buf'],
                map_err (fun e => with_operation e "optimized_transaction") r)))
  /\ (reg_read_is_write_then_read dev ->
      forall w buf s,
        let '(s1, _, (ops1, r1)) := ro_transaction dev a [OpWrite [w]; OpRead buf] s in
        let '(s2, _, (ops2, r2)) := transaction7 dev a [OpWrite [w]; OpRead buf] s in
        s1 = s2 /\ ops1 = ops2 /\ result_code r1 = result_code r2)
  /\ (forall operations s, fast_path_shape operations = false ->
        ro_transaction dev a operations s = transaction7 dev a operations s).
Proof.
  split; [|split].
  - intros w buf s. run_adapter. split_device; reflexivity.
  - intros Hdev w buf s. run_adapter. rewrite Hdev.
    split_device; repeat split.
  - intros operations s Hshape.
    destruct operations as [|[b|d] [|[b2|d2] [|o3 rest]]]; try reflexivity.
    unfold ro_transaction. simpl in Hshape. now rewrite Hshape.
Qed.

(** Witness of C1 on the register-pointer device. *)
Lemma C1_witness :
  reg_read_is_write_then_read pointer_dev /\
  (let '(s1, _, (ops1, r1)) :=
     ro_transaction pointer_dev (mkSevenBitAddr 0x48%N)
       [OpWrite [0x10%N]; OpRead [0; 0; 0; 0]%N] 0%N in
   let '(s2, _, (ops2, r2)) :=
     transaction7 pointer_dev (mkSevenBitAddr 0x48%N)
       [OpWrite [0x10%N]; OpRead [0; 0; 0; 0]%N] 0%N in
   s1 = s2 /\ ops1 = ops2 /\ result_code r1 = result_code r2).
Proof.
  assert (H : reg_read_is_write_then_read pointer_dev)
    by (intros s reg buf; reflexivity).
  split; [exact H |].
  exact (proj1 (proj2 (C1_fast_path_transaction pointer_dev (mkSevenBitAddr 0x48%N)))
           H 0x10%N [0; 0; 0; 0]%N 0%N).
Defined.

Lemma write10_calls {S} (dev : I2cDevice S) (a : TenBitAddr) (bytes : list u8) (s : S) :
  calls_of (write10 dev a bytes s) = [] \/
  exists d, calls_of (write10 dev a bytes s) = [CallWrite d].
Proof.
  unfold write10.
  destruct (hv_push [] (addr_high a)) as [v1|]; [|left; reflexivity].
  destruct (hv_push v1 (addr_low a)) as [v2|]; [|left; reflexivity].
  destruct (push_all v2 bytes) as [d|]; [|left; reflexivity].
  right. exists d. unfold bind, client_write, ret, calls_of.
  destruct (dev_write dev s d). reflexivity.
Qed.

Lemma read10_calls {S} (dev : I2cDevice S) (a : TenBitAddr) (buffer : list u8) (s : S) :
  calls_of (read10 dev a buffer s) = [CallWrite [addr_high a; addr_low a]] \/
  calls_of (read10 dev a buffer s) =
    [CallWrite [addr_high a; addr_low a]; CallReadInto (length buffer)].
Proof.
  unfold read10, bind, client_write, client_read_into, ret, calls_of.
  destruct (dev_write dev s _) as [s1 [w|w]]; simpl.
  - right. destruct (dev_read_into dev s1 buffer) as [[s2 b] r]. reflexivity.
  - left. reflexivity.
Qed.

Lemma write_read10_calls {S} (dev : I2cDevice S) (a : TenBitAddr)
  (bytes buffer : list u8) (s : S) :
  exists l1 l2, calls_of (write_read10 dev a bytes buffer s) = (l1 ++ l2)%list
    /\ (l1 = [] \/ exists d, l1 = [CallWrite d])
    /\ (l2 = [] \/ l2 = [CallWrite [addr_high a; addr_low a]]
        \/ l2 = [CallWrite [addr_high a; addr_low a]; CallReadInto (length buffer)]).
Proof.
  unfold write_read10. rewrite bind_calls.
  pose proof (write10_calls dev a bytes s) as Hw.
  destruct (write10 dev a bytes s) as [[s1 l1] r] eqn:E. simpl.
  exists l1. destruct r as [u|e].
  - exists (calls_of (read10 dev a buffer s1)). split; [reflexivity|].
    split; [exact Hw|]. right. apply read10_calls.
  - exists []. split; [reflexivity|]. split; [exact Hw|]. left. reflexivity.
Qed.

(** ** C3 *)

(** C3 (as stated, refuted): the 10-bit [write_read] with a one-byte
    write does not issue the register read: it issues the 10-bit write
    emulation, the 10-bit address setup and a plain read. *)
Lemma C3_counterexample :
  calls_of (write_read10 ok_dev (mkTenBitAddr 0x48%N) [0x10%N] [0; 0]%N tt) =
    [CallWrite [0xF0; 0x48; 0x10]; CallWrite [0xF0; 0x48]; CallReadInto 2]%N
  /\ existsb is_reg_read_call
       (calls_of (write_read10 ok_dev (mkTenBitAddr 0x48%N) [0x10%N] [0; 0]%N tt)) = false.
Proof. vm_compute. split; reflexivity. Qed.

(** C3 (amended): in 7-bit mode, [write_read] with a one-byte write
    issues the single register read (label "write_read_reg"), and with a
    longer write issues a plain write (label "write_read_write_phase")
    and, only if it succeeded, a plain read (label
    "write_read_read_phase"); in 10-bit mode [write_read] never issues
    the register read, whatever the length of the write. *)
Theorem C3_write_read_dispatch {S} (dev : I2cDevice S) :
  (forall a bytes buffer s, length bytes = 1%nat ->
     write_read7 dev a bytes buffer s =
       let '(s', buf, r) := dev_read_reg_into dev s (hd 0%N bytes) buffer in
       (s', [CallReadRegInto (hd 0%N bytes) (length buffer)],
        (buf, tag "write_read_reg" (discard r))))
  /\ (forall a bytes buffer s, (1 < length bytes)%nat ->
     write_read7 dev a bytes buffer s =
       let '(s1, w) := dev_write dev s bytes in
       match w with
       | Err c => (s1, [CallWrite bytes],
                   (buffer, Err (mkHubrisI2cError c "write_read_write_phase")))
       | Ok _ =>
           let '(s2, buf, r) := dev_read_into dev s1 buffer in
           (s2, [CallWrite bytes; CallReadInto (length buffer)],
            (buf, tag "write_read_read_phase" (discard r)))
       end)
  /\ (forall a bytes buffer s,
        existsb is_reg_read_call (calls_of (write_read10 dev a bytes buffer s)) = false).
Proof.
  split; [|split].
  - intros a bytes buffer s H. unfold write_read7. rewrite H. simpl.
    unfold bind, ret, client_read_reg_into, tag, discard, map_err, map_ok.
    split_device; reflexivity.
  - intros a bytes buffer s H. unfold write_read7.
    destruct (Nat.eqb_spec (length bytes) 1) as [E|E]; [lia|].
    unfold bind, ret, client_write, client_read_into, tag, discard, map_err, map_ok.
    split_device; reflexivity.
  - intros a bytes buffer s.
    destruct (write_read10_calls dev a bytes buffer s) as (l1 & l2 & -> & H1 & H2).
    rewrite existsb_app.
    destruct H1 as [ -> | [d ->] ]; destruct H2 as [ -> | [ -> | -> ] ]; reflexivity.
Qed.

(** Witness of C3 on the pointer device: 7-bit [write_read] of [0x10]
    into two bytes, and of [0x10; 0x11] into two bytes. *)
Lemma C3_witness :
  write_read7 pointer_dev (mkSevenBitAddr 0x48%N) [0x10%N] [0; 0]%N 0%N =
    (0x10%N, [CallReadRegInto 0x10%N 2], ([0x10; 0x10]%N, Ok tt))
  /\ write_read7 pointer_dev (mkSevenBitAddr 0x48%N) [0x10; 0x11]%N [0; 0]%N 0%N =
    (0x10%N, [CallWrite [0x10; 0x11]%N; CallReadInto 2], ([0x10; 0x10]%N, Ok tt)).
Proof.
  split.
  - exact (proj1 (C3_write_read_dispatch pointer_dev)
             (mkSevenBitAddr 0x48%N) [0x10%N] [0; 0]%N 0%N eq_refl).
  - refine (eq_trans (proj1 (proj2 (C3_write_read_dispatch pointer_dev))
                        (mkSevenBitAddr 0x48%N) [0x10; 0x11]%N [0; 0]%N 0%N _) _);
      [simpl; lia | reflexivity].
Defined.

(** ** C5 *)

Lemma read7_calls {S} (dev : I2cDevice S) a buffer (s : S) :
  calls_of (read7 dev a buffer s) = [CallReadInto (length buffer)].
Proof.
  unfold read7, bind, ret, client_read_into, calls_of.
  destruct (dev_read_into dev s buffer) as [[s1 b] r]. reflexivity.
Qed.

Lemma write7_calls {S} (dev : I2cDevice S) a bytes (s : S) :
  calls_of (write7 dev a bytes s) = [CallWrite bytes].
Proof.
  unfold write7, bind, ret, client_write, calls_of.
  destruct (dev_write dev s bytes). reflexivity.
Qed.

Lemma write_read7_calls_le {S} (dev : I2cDevice S) a bytes buffer (s : S) :
  (length (calls_of (write_read7 dev a bytes buffer s)) <= 2)%nat.
Proof.
  unfold write_read7, calls_of.
  destruct (length bytes =? 1)%nat;
    unfold bind, ret, client_write, client_read_into, client_read_reg_into;
    split_device; simpl; lia.
Qed.

Lemma read10_calls_le {S} (dev : I2cDevice S) a buffer (s : S) :
  (length (calls_of (read10 dev a buffer s)) <= 2)%nat.
Proof. destruct (read10_calls dev a buffer s) as [-> | ->]; simpl; lia. Qed.

Lemma write10_calls_le {S} (dev : I2cDevice S) a bytes (s : S) :
  (length (calls_of (write10 dev a bytes s)) <= 1)%nat.
Proof. destruct (write10_calls dev a bytes s) as [-> | [d ->]]; simpl; lia. Qed.

Lemma write_read10_calls_le {S} (dev : I2cDevice S) a bytes buffer (s : S) :
  (length (calls_of (write_read10 dev a bytes buffer s)) <= 3)%nat.
Proof.
  destruct (write_read10_calls dev a bytes buffer s) as (l1 & l2 & -> & H1 & H2).
  rewrite length_app.
  destruct H1 as [ -> | [d ->] ]; destruct H2 as [ -> | [ -> | -> ] ]; simpl; lia.
Qed.

(** Each element of a transaction costs at most [k] calls on the client. *)
Section TransactionCost.
Context {S : Type} {Addr : Type} (k : nat)
        (rd : Addr -> list u8 -> @M S (list u8 * Result unit HubrisI2cError))
        (wr : Addr -> list u8 -> @M S (Result unit HubrisI2cError))
        (relabel_rd relabel_wr : HubrisI2cError -> HubrisI2cError).
Hypothesis rd_cost : forall a b (s : S), (length (calls_of (rd a b s)) <= k)%nat.
Hypothesis wr_cost : forall a b (s : S), (length (calls_of (wr a b s)) <= k)%nat.

Lemma transaction_loop_calls_le (address : Addr) (operations : list Operation) (s : S) :
  (length (calls_of (transaction_loop rd wr relabel_rd relabel_wr address operations s)) <= k * length operations)%nat.
Proof.
  revert s. induction operations as [|[buffer|data] rest IH]; intros s.
  - simpl. lia.
  - simpl transaction_loop. rewrite bind_calls, length_app.
    pose proof (rd_cost address buffer s) as Hc.
    destruct (rd address buffer s) as [[s1 l1] [buf r]]. simpl in *.
    destruct r as [u|e].
    + rewrite bind_calls, length_app. specialize (IH s1).
      destruct (transaction_loop rd wr relabel_rd relabel_wr address rest s1) as [[s2 l2] [rest' r']].
      simpl in *. lia.
    + simpl. lia.
  - simpl transaction_loop. rewrite bind_calls, length_app.
    pose proof (wr_cost address data s) as Hc.
    destruct (wr address data s) as [[s1 l1] r]. simpl in *.
    destruct r as [u|e].
    + rewrite bind_calls, length_app. specialize (IH s1).
      destruct (transaction_loop rd wr relabel_rd relabel_wr address rest s1) as [[s2 l2] [rest' r']].
      simpl in *. lia.
    + simpl. lia.
Qed.
End TransactionCost.

Lemma transaction7_is_loop {S} (dev : I2cDevice S) a operations :
  transaction7 dev a operations =
    transaction_loop (read7 dev) (write7 dev)
      (fun e => with_operation e "transaction_read")
      (fun e => with_operation e "transaction_write") a operations.
Proof. induction operations as [|[b|d] rest IH]; simpl; try rewrite IH; reflexivity. Qed.

Lemma transaction10_is_loop {S} (dev : I2cDevice S) a operations :
  transaction10 dev a operations =
    transaction_loop (read10 dev) (write10 dev) (fun e => e) (fun e => e) a operations.
Proof. induction operations as [|[b|d] rest IH]; simpl; try rewrite IH; reflexivity. Qed.

(** C5 (as stated, refuted): a single 10-bit [write_read] issues three
    client calls, and a single 7-bit [transaction] of three writes issues
    three client calls. *)
Lemma C5_counterexample :
  length (calls_of (write_read10 ok_dev (mkTenBitAddr 0x48%N) [0x10%N] [0; 0]%N tt)) = 3%nat
  /\ length (calls_of (transaction7 ok_dev (mkSevenBitAddr 0x48%N)
                         [OpWrite [1%N]; OpWrite [2%N]; OpWrite [3%N]] tt)) = 3%nat.
Proof. vm_compute. split; reflexivity. Qed.

(** C5 (amended): a call to the Core Adapter issues on the device client
    at most one call for [read], [write] (7-bit) and the 10-bit [write],
    at most two for the 7-bit [write_read] and the 10-bit [read], at most
    three for the 10-bit [write_read], and for [transaction] at most one
    call per element in 7-bit mode and two per element in 10-bit mode. *)
Theorem C5_client_call_bounds {S} (dev : I2cDevice S) :
  (forall a buffer s, length (calls_of (read7 dev a buffer s)) <= 1)%nat
  /\ (forall a bytes s, length (calls_of (write7 dev a bytes s)) <= 1)%nat
  /\ (forall a bytes buffer s, length (calls_of (write_read7 dev a bytes buffer s)) <= 2)%nat
  /\ (forall a buffer s, length (calls_of (read10 dev a buffer s)) <= 2)%nat
  /\ (forall a bytes s, length (calls_of (write10 dev a bytes s)) <= 1)%nat
  /\ (forall a bytes buffer s, length (calls_of (write_read10 dev a bytes buffer s)) <= 3)%nat
  /\ (forall a operations s,
        length (calls_of (transaction7 dev a operations s)) <= length operations)%nat
  /\ (forall a operations s,
        length (calls_of (transaction10 dev a operations s)) <= 2 * length operations)%nat.
Proof.
  repeat split; intros.
  - rewrite read7_calls. simpl. lia.
  - rewrite write7_calls. simpl. lia.
  - apply write_read7_calls_le.
  - apply read10_calls_le.
  - apply write10_calls_le.
  - apply write_read10_calls_le.
  - rewrite transaction7_is_loop.
    rewrite <- (Nat.mul_1_l (length operations)).
    apply transaction_loop_calls_le.
    + intros. rewrite read7_calls. simpl. lia.
    + intros. rewrite write7_calls. simpl. lia.
  - rewrite transaction10_is_loop. apply transaction_loop_calls_le.
    + intros. apply read10_calls_le.
    + intros. pose proof (write10_calls_le dev a0 b s0). lia.
Qed.

(** ** C2 *)

Section RetryProps.
Context {I2C R E : Type} (error_kind : E -> ErrorKind)
        (operation : I2C -> I2C * Result R E).

Lemma state_after_S (k : nat) (s : I2C) :
  state_after operation (S k) s = fst (operation (state_after operation k s)).
Proof. revert s. induction k as [|k IH]; intros s; [reflexivity|]. apply IH. Qed.

Lemma retry_loop_retry (it attempt max_retries : nat) (s s1 : I2C) (e : E)
      (last : option E) :
  operation s = (s1, Err e) -> retryable_kind (error_kind e) = true ->
  attempt < max_retries -> max_retries < 256 ->
  retry_loop error_kind operation (S it) attempt max_retries s last =
    prepend [Attempted attempt; Slept (10 * (attempt + 1))]
      (retry_loop error_kind operation it (S attempt) max_retries s1 (Some e)).
Proof.
  intros Hop Hr Hlt Hmax. cbn [retry_loop]. rewrite Hop, Hr.
  assert (Hb : (attempt <? max_retries) = true) by (apply Nat.ltb_lt; lia).
  rewrite Hb, (Nat.mod_small (attempt + 1) 256) by lia.
  destruct (retry_loop error_kind operation it (S attempt) max_retries s1 (Some e))
    as [[s2 ev] res].
  reflexivity.
Qed.

Lemma retry_loop_last_retryable (attempt : nat) (s s1 : I2C) (e : E) (last : option E) :
  operation s = (s1, Err e) -> retryable_kind (error_kind e) = true ->
  retry_loop error_kind operation 1 attempt attempt s last =
    (s1, [Attempted attempt], Some (Err e)).
Proof.
  intros Hop Hr. cbn [retry_loop]. rewrite Hop, Hr, Nat.ltb_irrefl. reflexivity.
Qed.

Lemma retry_loop_fatal (it attempt max_retries : nat) (s s1 : I2C) (e : E)
      (last : option E) :
  operation s = (s1, Err e) -> retryable_kind (error_kind e) = false ->
  retry_loop error_kind operation (S it) attempt max_retries s last =
    (s1, [Attempted attempt], Some (Err e)).
Proof. intros Hop Hr. cbn [retry_loop]. rewrite Hop, Hr. reflexivity. Qed.

Lemma retry_loop_success (it attempt max_retries : nat) (s s1 : I2C) (v : R)
      (last : option E) :
  operation s = (s1, Ok v) ->
  retry_loop error_kind operation (S it) attempt max_retries s last =
    (s1, [Attempted attempt], Some (Ok v)).
Proof. intros Hop. cbn [retry_loop]. rewrite Hop. reflexivity. Qed.

Lemma retry_loop_run (N : nat) (HN : N < 256) :
  forall k i s last, i + k <= N ->
    (forall j, j < k -> fails_retryably error_kind operation (state_after operation j s)) ->
    exists last',
      retry_loop error_kind operation (S (N - i)) i N s last =
        prepend (retry_prefix_from i k)
          (retry_loop error_kind operation (S (N - (i + k))) (i + k) N
             (state_after operation k s) last').
Proof.
  induction k as [|k IH]; intros i s last Hik Hfail.
  - exists last. rewrite Nat.add_0_r. cbn [state_after].
    destruct (retry_loop error_kind operation (S (N - i)) i N s last) as [[s' ev] res].
    reflexivity.
  - destruct (Hfail 0 ltac:(lia)) as [e [He Hr]]. cbn [state_after] in He.
    destruct (operation s) as [s1 r] eqn:Eop. cbn [snd] in He. subst r.
    assert (Hs : forall j, j < k -> fails_retryably error_kind operation (state_after operation j s1)).
    { intros j Hj. pose proof (Hfail (S j) ltac:(lia)) as Hj'.
      cbn [state_after] in Hj'. rewrite Eop in Hj'. exact Hj'. }
    destruct (IH (S i) s1 (Some e) ltac:(lia) Hs) as [last' Hrun].
    exists last'.
    replace (N - i) with (S (N - S i)) by lia.
    rewrite (retry_loop_retry _ i N s s1 e last Eop Hr ltac:(lia) HN).
    rewrite Hrun.
    replace (S i + k) with (i + S k) by lia.
    cbn [state_after]. rewrite Eop. cbn [fst].
    destruct (retry_loop error_kind operation (S (N - (i + S k))) (i + S k) N
                (state_after operation k s1) last') as [[s2 ev] res].
    unfold prepend, retry_prefix_from. cbn [fst snd seq flat_map].
    rewrite app_assoc. reflexivity.
Qed.

(** C2: the retry decorator with [max_retries = N].  When every attempt
    fails with a retryable kind (arbitration-loss or other), there are
    exactly [N + 1] attempts, attempt [k] for [k < N] is followed by a
    sleep of [10 * (k + 1)] ms, and the result is the error of the last
    attempt; when attempt [k] fails with a non-retryable kind after [k]
    retryable failures, or succeeds, that outcome is returned at once
    and no further attempt is made. *)
Theorem C2_retry_bound (N : nat) (s : I2C) (HN : N < 256) :
  ((forall k, k <= N -> fails_retryably error_kind operation (state_after operation k s)) ->
     retry_operation error_kind operation N s =
       (state_after operation (S N) s, (retry_prefix_from 0 N ++ [Attempted N])%list,
        Some (snd (operation (state_after operation N s)))))
  /\ (forall k e, k <= N -> (forall j, j < k -> fails_retryably error_kind operation (state_after operation j s)) ->
       snd (operation (state_after operation k s)) = Err e ->
       retryable_kind (error_kind e) = false ->
       retry_operation error_kind operation N s =
         (state_after operation (S k) s, (retry_prefix_from 0 k ++ [Attempted k])%list, Some (Err e)))
  /\ (forall k v, k <= N -> (forall j, j < k -> fails_retryably error_kind operation (state_after operation j s)) ->
       snd (operation (state_after operation k s)) = Ok v ->
       retry_operation error_kind operation N s =
         (state_after operation (S k) s, (retry_prefix_from 0 k ++ [Attempted k])%list, Some (Ok v))).
Proof.
  unfold retry_operation.
  split; [|split].
  - intros Hall.
    destruct (retry_loop_run N HN N 0 s None ltac:(lia)
                (fun j Hj => Hall j ltac:(lia))) as [last' Hrun].
    rewrite Nat.sub_0_r in Hrun. rewrite Hrun.
    destruct (Hall N ltac:(lia)) as [e [He Hr]].
    rewrite state_after_S.
    replace (N - (0 + N)) with 0 by lia. replace (0 + N) with N by lia.
    destruct (operation (state_after operation N s)) as [s' r] eqn:Eop.
    cbn [snd] in He. subst r.
    rewrite (retry_loop_last_retryable N _ s' e last' Eop Hr). reflexivity.
  - intros k e Hk Hpre He Hr.
    destruct (retry_loop_run N HN k 0 s None ltac:(lia) Hpre) as [last' Hrun].
    rewrite Nat.sub_0_r in Hrun. rewrite Hrun.
    rewrite state_after_S. replace (0 + k) with k by lia.
    destruct (operation (state_after operation k s)) as [s' r] eqn:Eop.
    cbn [snd] in He. subst r.
    rewrite (retry_loop_fatal _ k N _ s' e last' Eop Hr). reflexivity.
  - intros k v Hk Hpre Hv.
    destruct (retry_loop_run N HN k 0 s None ltac:(lia) Hpre) as [last' Hrun].
    rewrite Nat.sub_0_r in Hrun. rewrite Hrun.
    rewrite state_after_S. replace (0 + k) with k by lia.
    destruct (operation (state_after operation k s)) as [s' r] eqn:Eop.
    cbn [snd] in Hv. subst r.
    rewrite (retry_loop_success _ k N _ s' v last' Eop). reflexivity.
Qed.
End RetryProps.

(** Witness of C2 with [max_retries = 2]. *)
Lemma C2_witness :
  retry_operation kind busy_op 2 0 =
    (3%nat, [Attempted 0; Slept 10; Attempted 1; Slept 20; Attempted 2],
     Some (Err (mkHubrisI2cError BusLocked "read")))
  /\ retry_operation kind nack_op 2 0 =
    (1%nat, [Attempted 0], Some (Err (mkHubrisI2cError AddressNackSentEarly "read")))
  /\ retry_operation kind flaky_op 2 0 =
    (2%nat, [Attempted 0; Slept 10; Attempted 1], Some (Ok tt)).
Proof.
  split; [|split].
  - refine (eq_trans (proj1 (C2_retry_bound kind busy_op 2 0 ltac:(lia)) _) eq_refl).
    intros k Hk. eexists; split; reflexivity.
  - refine (eq_trans (proj1 (proj2 (C2_retry_bound kind nack_op 2 0 ltac:(lia)))
                        0 (mkHubrisI2cError AddressNackSentEarly "read")
                        ltac:(lia) _ eq_refl eq_refl) eq_refl).
    intros j Hj. lia.
  - refine (eq_trans (proj2 (proj2 (C2_retry_bound kind flaky_op 2 0 ltac:(lia)))
                        1 tt ltac:(lia) _ eq_refl) eq_refl).
    intros j Hj. assert (j = 0%nat) by lia. subst j.
    eexists; split; reflexivity.
Defined.

(** ** C9 and C10: the mock harness *)

Lemma mock_next_exhausted (m : MockI2c) :
  (length (expected_operations m) <=? operation_index m)%nat = true ->
  nth_error (expected_operations m) (operation_index m) = None.
Proof. intros H. apply nth_error_None. now apply Nat.leb_le. Qed.

Ltac mock_cases m :=
  destruct (length (expected_operations m) <=? operation_index m)%nat eqn:Hex;
  [ rewrite (mock_next_exhausted m Hex)
  | destruct (nth_error (expected_operations m) (operation_index m))
      as [[ea resp | ea resp | ea wr resp] |] ];
  repeat match goal with
         | |- context [SevenBitAddr_eqb ?x ?y] => destruct (SevenBitAddr_eqb x y)
         | |- context [bytes_eqb ?x ?y] => destruct (bytes_eqb x y)
         | |- context [(?x =? ?y)%nat] =>
             let E := fresh "Elen" in destruct (x =? y)%nat eqn:E
         end.

Lemma mock_read_cases (m : MockI2c) (address : SevenBitAddr) (buffer : list u8) :
  (read_matches m address buffer = true
   /\ mock_read m address buffer = (mock_advance m, next_response m, Ok tt)
   /\ length (next_response m) = length buffer)
  \/ (read_matches m address buffer = false
      /\ exists msg, mock_read m address buffer = (m, buffer, Err (mkMockI2cError msg))).
Proof.
  unfold mock_read, read_matches, next_response, mock_fail.
  mock_cases m; simpl; eauto;
    left; repeat split; symmetry; apply Nat.eqb_eq; assumption.
Qed.

Lemma mock_write_cases (m : MockI2c) (address : SevenBitAddr) (bytes : list u8) :
  (write_matches m address bytes = true
   /\ mock_write m address bytes = (mock_advance m, Ok tt))
  \/ (write_matches m address bytes = false
      /\ exists msg, mock_write m address bytes = (m, Err (mkMockI2cError msg))).
Proof.
  unfold mock_write, write_matches.
  mock_cases m; simpl; eauto.
Qed.

Lemma mock_write_read_cases (m : MockI2c) (address : SevenBitAddr) (bytes buffer : list u8) :
  (write_read_matches m address bytes buffer = true
   /\ mock_write_read m address bytes buffer = (mock_advance m, next_response m, Ok tt)
   /\ length (next_response m) = length buffer)
  \/ (write_read_matches m address bytes buffer = false
      /\ exists msg,
           mock_write_read m address bytes buffer = (m, buffer, Err (mkMockI2cError msg))).
Proof.
  unfold mock_write_read, write_read_matches, next_response, mock_fail.
  mock_cases m; simpl; eauto;
    left; repeat split; symmetry; apply Nat.eqb_eq; assumption.
Qed.

Lemma mock_transaction_cursor (m : MockI2c) (address : SevenBitAddr)
  (operations : list Operation) :
  let '(m', _, r) := mock_transaction m address operations in
  expected_operations m' = expected_operations m
  /\ (if is_ok r then operation_index m' = operation_index m + length operations
      else operation_index m <= operation_index m' < operation_index m + length operations)%nat.
Proof.
  revert m. induction operations as [|[buffer|data] rest IH]; intros m; simpl.
  - split; [reflexivity | lia].
  - destruct (mock_read_cases m address buffer) as [[_ [-> _]] | [_ [msg ->]]].
    + specialize (IH (mock_advance m)).
      destruct (mock_transaction (mock_advance m) address rest) as [[m2 rest'] r'].
      destruct IH as [Hexp Hidx]. simpl in *. split; [exact Hexp|].
      destruct (is_ok r'); lia.
    + simpl. split; [reflexivity | lia].
  - destruct (mock_write_cases m address data) as [[_ ->] | [_ [msg ->]]].
    + specialize (IH (mock_advance m)).
      destruct (mock_transaction (mock_advance m) address rest) as [[m2 rest'] r'].
      destruct IH as [Hexp Hidx]. simpl in *. split; [exact Hexp|].
      destruct (is_ok r'); lia.
    + simpl. split; [reflexivity | lia].
Qed.

(** C9 (as stated, refuted): a [transaction] call whose second element
    does not match the script returns an error, yet the cursor has moved
    past the first element, which matched. *)
Lemma C9_counterexample :
  let m := mkMockI2c [MockWrite (mkSevenBitAddr 0x48%N) [1%N];
                      MockWrite (mkSevenBitAddr 0x48%N) [3%N]] 0 in
  let '(m', _, r) := mock_transaction m (mkSevenBitAddr 0x48%N)
                       [OpWrite [1%N]; OpWrite [2%N]] in
  is_ok r = false /\ operation_index m' = 1%nat.
Proof. vm_compute. split; reflexivity. Qed.

(** C9 (amended): a [read], [write] or [write_read] call on the mock
    succeeds exactly when the next expectation matches it (kind, address,
    payload, buffer length); it then advances the cursor by one, and
    otherwise returns an error and leaves the harness unchanged.  A
    [transaction] call runs its elements in order through [read] and
    [write]: on success the cursor advances by one per element, and on
    failure it has advanced past the elements that matched before the
    failing one, so by less than the number of elements; the script is
    never modified. *)
Theorem C9_mock_cursor (m : MockI2c) (address : SevenBitAddr) (bytes buffer : list u8)
  (operations : list Operation) :
  (let '(m', _, r) := mock_read m address buffer in
   is_ok r = read_matches m address buffer
   /\ m' = if read_matches m address buffer then mock_advance m else m)
  /\ (let '(m', r) := mock_write m address bytes in
      is_ok r = write_matches m address bytes
      /\ m' = if write_matches m address bytes then mock_advance m else m)
  /\ (let '(m', _, r) := mock_write_read m address bytes buffer in
      is_ok r = write_read_matches m address bytes buffer
      /\ m' = if write_read_matches m address bytes buffer then mock_advance m else m)
  /\ operation_index (mock_advance m) = S (operation_index m)
  /\ (let '(m', _, r) := mock_transaction m address operations in
      expected_operations m' = expected_operations m
      /\ (if is_ok r then operation_index m' = operation_index m + length operations
          else operation_index m <= operation_index m' < operation_index m + length operations)%nat).
Proof.
  split; [|split; [|split; [|split]]].
  - destruct (mock_read_cases m address buffer) as [[-> [-> _]] | [-> [msg ->]]];
      split; reflexivity.
  - destruct (mock_write_cases m address bytes) as [[-> ->] | [-> [msg ->]]];
      split; reflexivity.
  - destruct (mock_write_read_cases m address bytes buffer) as [[-> [-> _]] | [-> [msg ->]]];
      split; reflexivity.
  - reflexivity.
  - apply mock_transaction_cursor.
Qed.

(** C10: the mock's [read] and [write_read] leave the caller's buffer
    untouched when they return an error, and on success the buffer holds
    exactly the canned response, which has the buffer's length. *)
Theorem C10_mock_buffer_frame (m : MockI2c) (address : SevenBitAddr)
  (bytes buffer : list u8) :
  (let '(_, buf, r) := mock_read m address buffer in
   buf = (if is_ok r then next_response m else buffer) /\ length buf = length buffer)
  /\ (let '(_, buf, r) := mock_write_read m address bytes buffer in
      buf = (if is_ok r then next_response m else buffer) /\ length buf = length buffer).
Proof.
  split.
  - destruct (mock_read_cases m address buffer) as [[_ [-> Hl]] | [_ [msg ->]]];
      split; auto.
  - destruct (mock_write_read_cases m address bytes buffer) as [[_ [-> Hl]] | [_ [msg ->]]];
      split; auto.
Qed.

(** ** Witnesses *)

(** Witness of C4: address 0x123 with payload [0xAA], and a 257-byte
    payload, on a device that accepts every write. *)
Lemma C4_witness :
  write10 ok_dev (mkTenBitAddr 0x123%N) [0xAA%N] tt =
    (tt, [CallWrite [0xF2; 0x23; 0xAA]%N], Ok tt)
  /\ write10 ok_dev (mkTenBitAddr 0x123%N) (repeat 0%N 257) tt =
    (tt, [], Err (mkHubrisI2cError BadResponse "10bit_write_buffer_overflow")).
Proof.
  split.
  - exact (proj1 (C4_tenbit_write_emulation ok_dev (mkTenBitAddr 0x123%N) [0xAA%N] tt)
             ltac:(simpl; lia)).
  - exact (proj1 (proj1 (proj2 (C4_tenbit_write_emulation ok_dev (mkTenBitAddr 0x123%N)
                                  (repeat 0%N 257) tt)) ltac:(rewrite repeat_length; lia))).
Defined.

(** Witness of C7 at 0x48, 0x78 and 0x80. *)
Lemma C7_witness :
  (exists x, SevenBitAddr_try_new 0x48%N = Ok x /\ SevenBitAddr_get x = 0x48%N)
  /\ SevenBitAddr_try_new 0x78%N = Err (Reserved 0x78%N)
  /\ SevenBitAddr_try_new 0x80%N = Err (SevenBitRange 0x80%N).
Proof.
  split; [|split].
  - exact (proj1 (C7_sevenbit_try_new 0x48%N) ltac:(lia)).
  - exact (proj1 (proj2 (C7_sevenbit_try_new 0x78%N)) ltac:(right; lia)).
  - exact (proj2 (proj2 (C7_sevenbit_try_new 0x80%N)) ltac:(lia)).
Defined.

(** * Further properties of the wrapper *)

(** ** Address constructors and the error classifier *)

(** X1: [TenBitAddr::try_new a] accepts exactly the values up to [0x3FF],
    and [get] gives the value back; every larger value is rejected with
    [TenBitRange a]. *)
Theorem X1_tenbit_try_new (a : u16) :
  ((a <= 0x3FF)%N -> exists x, TenBitAddr_try_new a = Ok x /\ TenBitAddr_get x = a)
  /\ ((0x3FF < a)%N -> TenBitAddr_try_new a = Err (TenBitRange a)).
Proof.
  unfold TenBitAddr_try_new. split; intros H.
  - destruct (N.ltb_spec 0x3FF a) as [Hlt|_]; [lia|].
    eexists; split; reflexivity.
  - destruct (N.ltb_spec 0x3FF a) as [_|Hge]; [reflexivity | lia].
Qed.

(** X2: the retry decorator over [HubrisI2c] gives up at once exactly on
    the address-nack, data-nack and bus-error codes: every other response
    code, including [NoDevice], [BusLocked] and [BusTimeout], is classified
    as a retryable kind. *)
Theorem X2_retryable_codes (e : HubrisI2cError) :
  retryable_kind (kind e) = false <->
  (response_code e = AddressNackSentEarly \/ response_code e = AddressNackSentLate
   \/ response_code e = DataNackSent \/ response_code e = BusError).
Proof.
  destruct e as [c op]; unfold kind; simpl.
  destruct c; simpl; split; intros H; try reflexivity;
    try discriminate; intuition discriminate.
Qed.

(** X3: [retry_delay] suggests a delay exactly for the temporary errors
    ([is_temporary]), that delay is between 1 and 100 ms, and every
    temporary error has a kind the retry decorator retries. *)
Theorem X3_temporary_delay (e : HubrisI2cError) :
  (is_temporary e = true <-> exists d, retry_delay e = Some d)
  /\ (forall d, retry_delay e = Some d -> 1 <= d <= 100)
  /\ (is_temporary e = true -> retryable_kind (kind e) = true).
Proof.
  destruct e as [c op]; unfold is_temporary, retry_delay, kind; simpl.
  destruct c; simpl; (split; [split|split]);
    first [ intros H; discriminate
          | intros [d Hd]; discriminate
          | intros _; eexists; reflexivity
          | intros _; reflexivity
          | intros d Hd; injection Hd as <-; lia
          | intros d Hd; discriminate ].
Qed.

(** ** The 7-bit transaction *)

Lemma transaction_loop_err_label {S Addr} rd wr relabel_rd relabel_wr
      (address : Addr) (operations : list Operation) (s : S) :
  match snd (snd (transaction_loop rd wr relabel_rd relabel_wr address operations s)) with
  | Err e => (exists e0, e = relabel_rd e0) \/ (exists e0, e = relabel_wr e0)
  | Ok _ => True
  end.
Proof.
  revert s. induction operations as [|[b|d] rest IH]; intros s; simpl; [exact I| |].
  - unfold bind. destruct (rd address b s) as [[s1 l1] [buf [u|err]]]; simpl.
    + specialize (IH s1).
      destruct (transaction_loop rd wr relabel_rd relabel_wr address rest s1)
        as [[s2 l2] [ops' r']]; simpl in *. exact IH.
    + left. eauto.
  - unfold bind. destruct (wr address d s) as [[s1 l1] [u|err]]; simpl.
    + specialize (IH s1).
      destruct (transaction_loop rd wr relabel_rd relabel_wr address rest s1)
        as [[s2 l2] [ops' r']]; simpl in *. exact IH.
    + right. eauto.
Qed.

(** X4: every error returned by the 7-bit [transaction] is labelled
    ["transaction_read"] or ["transaction_write"], and relabelling an
    error never changes its classification ([kind], [is_device_not_found],
    [is_temporary], [retry_delay]). *)
Theorem X4_transaction7_labels {S} (dev : I2cDevice S) (a : SevenBitAddr)
  (operations : list Operation) (s : S) (e : HubrisI2cError) (op : string) :
  match snd (snd (transaction7 dev a operations s)) with
  | Err err => operation err = "transaction_read"%string
               \/ operation err = "transaction_write"%string
  | Ok _ => True
  end
  /\ kind (with_operation e op) = kind e
  /\ is_device_not_found (with_operation e op) = is_device_not_found e
  /\ is_temporary (with_operation e op) = is_temporary e
  /\ retry_delay (with_operation e op) = retry_delay e.
Proof.
  split; [|repeat split].
  rewrite transaction7_is_loop.
  pose proof (transaction_loop_err_label (read7 dev) (write7 dev)
                (fun e => with_operation e "transaction_read")
                (fun e => with_operation e "transaction_write") a operations s) as H.
  destruct (snd (snd _)) as [u|err]; [exact I|].
  destruct H as [[e0 ->] | [e0 ->]]; [left | right]; reflexivity.
Qed.

(** ** The 10-bit address header *)

Lemma tenbit_roundtrip_all : forallb tenbit_roundtrip_check (seq 0 1024) = true.
Proof. vm_compute. reflexivity. Qed.

Lemma addr_high_mod (a : TenBitAddr) :
  addr_high a = addr_high (mkTenBitAddr (tb_0 a mod 1024)%N).
Proof.
  rewrite !addr_high_eq. cbn [tb_0]. f_equal.
  change 1024%N with (2 ^ 10)%N. rewrite <- N.land_ones, N.shiftr_land.
  rewrite <- N.land_assoc. reflexivity.
Qed.

Lemma addr_low_mod (a : TenBitAddr) :
  addr_low a = addr_low (mkTenBitAddr (tb_0 a mod 1024)%N).
Proof.
  rewrite !addr_low_eq. cbn [tb_0].
  change 1024%N with (2 ^ 10)%N. rewrite <- N.land_ones.
  rewrite <- N.land_assoc. reflexivity.
Qed.

(** X5: the first header byte of emulated 10-bit addressing always carries
    the marker [11110] with the read/write bit clear ([hi & 0xF9 = 0xF0]);
    the header depends only on the low ten bits of the address; and for an
    address up to [0x3FF] the header bytes encode it exactly (bits 9-8 in
    bits 2-1 of the first byte, bits 7-0 in the second byte). *)
Theorem X5_tenbit_header (a : TenBitAddr) :
  N.land (addr_high a) 0xF9 = 0xF0%N
  /\ addr_high a = addr_high (mkTenBitAddr (tb_0 a mod 1024)%N)
  /\ addr_low a = addr_low (mkTenBitAddr (tb_0 a mod 1024)%N)
  /\ ((tb_0 a <= 0x3FF)%N -> tenbit_header_address (addr_high a) (addr_low a) = tb_0 a).
Proof.
  split; [|split; [|split]].
  - rewrite addr_high_eq, N.land_lor_distr_l, <- N.land_assoc.
    change (N.land 6 249) with 0%N. rewrite N.land_0_r. reflexivity.
  - apply addr_high_mod.
  - apply addr_low_mod.
  - intros H. destruct a as [v]. simpl in H |- *.
    pose proof tenbit_roundtrip_all as Hall. rewrite forallb_forall in Hall.
    specialize (Hall (N.to_nat v)). rewrite in_seq in Hall.
    unfold tenbit_roundtrip_check in Hall. rewrite N2Nat.id in Hall.
    apply N.eqb_eq, Hall. lia.
Qed.

(** ** Composition of transactions *)

Lemma transaction_loop_app {S Addr} rd wr relabel_rd relabel_wr (address : Addr)
      (ops1 ops2 : list Operation) (s : S) :
  transaction_loop rd wr relabel_rd relabel_wr address (ops1 ++ ops2) s =
    let '(s1, l1, (o1, r1)) :=
      transaction_loop rd wr relabel_rd relabel_wr address ops1 s in
    match r1 with
    | Ok _ =>
        let '(s2, l2, (o2, r2)) :=
          transaction_loop rd wr relabel_rd relabel_wr address ops2 s1 in
        (s2, (l1 ++ l2)%list, ((o1 ++ o2)%list, r2))
    | Err e => (s1, l1, ((o1 ++ ops2)%list, Err e))
    end.
Proof.
  revert s. induction ops1 as [|[b|d] rest IH]; intros s.
  - cbn [app transaction_loop]. unfold ret.
    destruct (transaction_loop rd wr relabel_rd relabel_wr address ops2 s)
      as [[s2 l2] [o2 r2]]. reflexivity.
  - cbn [app transaction_loop]. unfold bind.
    destruct (rd address b s) as [[s1 l1] [buf [u|err]]].
    + rewrite IH.
      destruct (transaction_loop rd wr relabel_rd relabel_wr address rest s1)
        as [[s2 l2] [o2 [u2|e2]]].
      * unfold ret. simpl.
        destruct (transaction_loop rd wr relabel_rd relabel_wr address ops2 s2)
          as [[s3 l3] [o3 r3]].
        simpl. rewrite !app_nil_r, !app_assoc. reflexivity.
      * unfold ret. simpl. rewrite !app_nil_r. reflexivity.
    + unfold ret. reflexivity.
  - cbn [app transaction_loop]. unfold bind.
    destruct (wr address d s) as [[s1 l1] [u|err]].
    + rewrite IH.
      destruct (transaction_loop rd wr relabel_rd relabel_wr address rest s1)
        as [[s2 l2] [o2 [u2|e2]]].
      * unfold ret. simpl.
        destruct (transaction_loop rd wr relabel_rd relabel_wr address ops2 s2)
          as [[s3 l3] [o3 r3]].
        simpl. rewrite !app_nil_r, !app_assoc. reflexivity.
      * unfold ret. simpl. rewrite !app_nil_r. reflexivity.
    + unfold ret. reflexivity.
Qed.

(** X6: a [transaction] of [HubrisI2c] (7-bit and 10-bit) over
    [ops1 ++ ops2] is the transaction over [ops1] followed, when it
    succeeds, by the transaction over [ops2] from the resulting device
    state, with the client calls and the returned operations concatenated;
    when the transaction over [ops1] fails, its error is returned with
    [ops2] untouched and no client call is made for [ops2]. *)
Theorem X6_transaction_compose {S} (dev : I2cDevice S) (a7 : SevenBitAddr)
  (a10 : TenBitAddr) (ops1 ops2 : list Operation) (s : S) :
  transaction7 dev a7 (ops1 ++ ops2) s =
    (let '(s1, l1, (o1, r1)) := transaction7 dev a7 ops1 s in
     match r1 with
     | Ok _ =>
         let '(s2, l2, (o2, r2)) := transaction7 dev a7 ops2 s1 in
         (s2, (l1 ++ l2)%list, ((o1 ++ o2)%list, r2))
     | Err e => (s1, l1, ((o1 ++ ops2)%list, Err e))
     end)
  /\ transaction10 dev a10 (ops1 ++ ops2) s =
    (let '(s1, l1, (o1, r1)) := transaction10 dev a10 ops1 s in
     match r1 with
     | Ok _ =>
         let '(s2, l2, (o2, r2)) := transaction10 dev a10 ops2 s1 in
         (s2, (l1 ++ l2)%list, ((o1 ++ o2)%list, r2))
     | Err e => (s1, l1, ((o1 ++ ops2)%list, Err e))
     end).
Proof.
  split.
  - rewrite !transaction7_is_loop. apply transaction_loop_app.
  - rewrite !transaction10_is_loop. apply transaction_loop_app.
Qed.

Lemma transaction_loop_payloads {S Addr} rd wr relabel_rd relabel_wr (address : Addr)
      (operations : list Operation) (s : S) :
  write_payloads (fst (snd (transaction_loop rd wr relabel_rd relabel_wr address
                              operations s))) = write_payloads operations.
Proof.
  revert s. induction operations as [|[b|d] rest IH]; intros s; [reflexivity| |].
  - cbn [transaction_loop]. unfold bind.
    destruct (rd address b s) as [[s1 l1] [buf [u|err]]]; [|reflexivity].
    specialize (IH s1).
    destruct (transaction_loop rd wr relabel_rd relabel_wr address rest s1)
      as [[s2 l2] [o2 r2]].
    simpl in *. now rewrite IH.
  - cbn [transaction_loop]. unfold bind.
    destruct (wr address d s) as [[s1 l1] [u|err]]; [|reflexivity].
    specialize (IH s1).
    destruct (transaction_loop rd wr relabel_rd relabel_wr address rest s1)
      as [[s2 l2] [o2 r2]].
    simpl in *. now rewrite IH.
Qed.

Lemma mock_transaction_payloads (m : MockI2c) (address : SevenBitAddr)
      (operations : list Operation) :
  write_payloads (snd (fst (mock_transaction m address operations)))
  = write_payloads operations.
Proof.
  revert m. induction operations as [|[b|d] rest IH]; intros m; [reflexivity| |].
  - cbn [mock_transaction].
    destruct (mock_read_cases m address b) as [[_ [-> _]] | [_ [msg ->]]]; [|reflexivity].
    specialize (IH (mock_advance m)).
    destruct (mock_transaction (mock_advance m) address rest) as [[m2 o2] r2].
    simpl in *. now rewrite IH.
  - cbn [mock_transaction].
    destruct (mock_write_cases m address d) as [[_ ->] | [_ [msg ->]]]; [|reflexivity].
    specialize (IH (mock_advance m)).
    destruct (mock_transaction (mock_advance m) address rest) as [[m2 o2] r2].
    simpl in *. now rewrite IH.
Qed.

(** X7: every [transaction] implementation (the 7-bit and 10-bit
    adapters, the register fast path and the mock) hands back the
    operation list with the same number of elements, each of the same
    kind, and every [Write] element with its payload unchanged, whether it
    succeeds or fails; only read buffers are filled in. *)
Theorem X7_transaction_shape {S} (dev : I2cDevice S) (a7 : SevenBitAddr)
  (a10 : TenBitAddr) (m : MockI2c) (operations : list Operation) (s : S) :
  write_payloads (fst (snd (transaction7 dev a7 operations s))) = write_payloads operations
  /\ write_payloads (fst (snd (transaction10 dev a10 operations s)))
     = write_payloads operations
  /\ write_payloads (fst (snd (ro_transaction dev a7 operations s)))
     = write_payloads operations
  /\ write_payloads (snd (fst (mock_transaction m a7 operations)))
     = write_payloads operations.
Proof.
  assert (H7 : forall ops, write_payloads (fst (snd (transaction7 dev a7 ops s)))
                           = write_payloads ops).
  { intros ops. rewrite transaction7_is_loop. apply transaction_loop_payloads. }
  split; [apply H7|split; [|split]].
  - rewrite transaction10_is_loop. apply transaction_loop_payloads.
  - unfold ro_transaction.
    destruct operations as [|[b|d] [|[b2|d2] [|o3 rest]]]; try apply H7.
    destruct (length d =? 1)%nat; [|apply H7].
    unfold bind, client_read_reg_into, ret.
    destruct (dev_read_reg_into dev s (hd 0%N d) b2) as [[s1 buf] r]. reflexivity.
  - apply mock_transaction_payloads.
Qed.

(** ** Emulated 10-bit [write_read] *)

(** X8: a 10-bit [write_read] whose payload is longer than 256 bytes
    (the 258-byte staging vector minus the two header bytes) fails with the
    buffer-overflow error before any client call, leaving the device state
    and the caller's buffer unchanged; with a payload that fits, a failed
    write phase is returned with the caller's buffer unchanged, after one
    client call (the write of header and payload) and no read. *)
Theorem X8_tenbit_write_read_phases {S} (dev : I2cDevice S) (a : TenBitAddr)
  (bytes buffer : list u8) (s : S) :
  ((256 < length bytes)%nat ->
     write_read10 dev a bytes buffer s = (s, [], (buffer, Err overflow_error)))
  /\ ((length bytes <= 256)%nat -> forall s1 c,
     dev_write dev s (addr_high a :: addr_low a :: bytes) = (s1, Err c) ->
     write_read10 dev a bytes buffer s =
       (s1, [CallWrite (addr_high a :: addr_low a :: bytes)],
        (buffer, Err (mkHubrisI2cError c "10bit_write")))).
Proof.
  split.
  - intros H. unfold write_read10, write10.
    rewrite (hv_push_ok []) by (cbv; lia).
    rewrite (hv_push_ok [addr_high a]) by (cbv; lia).
    rewrite push_all_overflows by (simpl; unfold HEAPLESS_CAP; lia).
    reflexivity.
  - intros H s1 c Hw. unfold write_read10, write10.
    rewrite (hv_push_ok []) by (cbv; lia).
    rewrite (hv_push_ok [addr_high a]) by (cbv; lia).
    rewrite push_all_fits by (simpl; unfold HEAPLESS_CAP; lia).
    unfold bind, client_write, ret, tag, map_err. simpl. rewrite Hw. reflexivity.
Qed.

(** ** The register fast path's [write_read] *)

(** X9: the fast path's [write_read] has exactly the effect of the Core
    Adapter's [write_read] (device state, client calls, output buffer and
    status code); only the error label differs, and for a payload that is
    not a single byte it is the Core Adapter's [write_read] unchanged. *)
Theorem X9_fast_write_read {S} (dev : I2cDevice S) (a : SevenBitAddr)
  (bytes buffer : list u8) (s : S) :
  (let '(s1, l1, (b1, r1)) := ro_write_read dev a bytes buffer s in
   let '(s2, l2, (b2, r2)) := write_read7 dev a bytes buffer s in
   s1 = s2 /\ l1 = l2 /\ b1 = b2 /\ result_code r1 = result_code r2)
  /\ ((length bytes =? 1)%nat = false ->
      ro_write_read dev a bytes buffer s = write_read7 dev a bytes buffer s).
Proof.
  split.
  - unfold ro_write_read.
    destruct (length bytes =? 1)%nat eqn:E.
    + unfold write_read7. rewrite E. unfold bind, client_read_reg_into, ret.
      destruct (dev_read_reg_into dev s (hd 0%N bytes) buffer) as [[s1 buf] [n|c]];
        repeat split.
    + destruct (write_read7 dev a bytes buffer s) as [[s2 l2] [b2 r2]].
      repeat split.
  - intros E. unfold ro_write_read. now rewrite E.
Qed.

(** ** The retry decorator in general *)

Lemma retry_loop_shape {I2C R E : Type} (error_kind : E -> ErrorKind)
      (operation : I2C -> I2C * Result R E) (N : nat) (HN : N < 256) :
  forall d i s last, i + d = N ->
  exists k, k <= d
    /\ (forall j, j < k -> fails_retryably error_kind operation (state_after operation j s))
    /\ (k < d -> forall e, snd (operation (state_after operation k s)) = Err e ->
                           retryable_kind (error_kind e) = false)
    /\ retry_loop error_kind operation (S d) i N s last =
         (state_after operation (S k) s, (retry_prefix_from i k ++ [Attempted (i + k)])%list,
          Some (snd (operation (state_after operation k s)))).
Proof.
  induction d as [|d IH]; intros i s last Hid.
  - exists 0. split; [lia|]. split; [intros j Hj; lia|]. split; [intros Hk; lia|].
    cbn [state_after]. rewrite Nat.add_0_r. rewrite Nat.add_0_r in Hid. subst i.
    destruct (operation s) as [s1 [v|e]] eqn:Eop.
    + rewrite (retry_loop_success error_kind operation 0 N N s s1 v last Eop).
      reflexivity.
    + destruct (retryable_kind (error_kind e)) eqn:Hr.
      * rewrite (retry_loop_last_retryable error_kind operation N s s1 e last Eop Hr).
        reflexivity.
      * rewrite (retry_loop_fatal error_kind operation 0 N N s s1 e last Eop Hr).
        reflexivity.
  - destruct (operation s) as [s1 [v|e]] eqn:Eop.
    + exists 0. split; [lia|]. split; [intros j Hj; lia|].
      split; [intros _ e; cbn [state_after]; rewrite Eop; discriminate|].
      rewrite (retry_loop_success error_kind operation (S d) i N s s1 v last Eop).
      cbn [state_after]. rewrite Eop, Nat.add_0_r. reflexivity.
    + destruct (retryable_kind (error_kind e)) eqn:Hr.
      * destruct (IH (S i) s1 (Some e) ltac:(lia)) as [k [Hk [Hpre [Hstop Hrun]]]].
        exists (S k). split; [lia|]. split; [|split].
        -- intros [|j] Hj; cbn [state_after].
           ++ exists e. rewrite Eop. split; [reflexivity | exact Hr].
           ++ rewrite Eop. apply Hpre. lia.
        -- intros Hlt e' He'. cbn [state_after] in He'. rewrite Eop in He'.
           apply (Hstop ltac:(lia) e' He').
        -- rewrite (retry_loop_retry error_kind operation (S d) i N s s1 e last Eop Hr
                      ltac:(lia) HN).
           rewrite Hrun. unfold prepend, retry_prefix_from.
           cbn [fst snd seq flat_map state_after]. rewrite Eop. cbn [fst].
           replace (S i + k) with (i + S k) by lia. reflexivity.
      * exists 0. split; [lia|]. split; [intros j Hj; lia|].
        split; [intros _ e'; cbn [state_after]; rewrite Eop; intros He'; injection He' as <-; exact Hr|].
        rewrite (retry_loop_fatal error_kind operation (S d) i N s s1 e last Eop Hr).
        cbn [state_after]. rewrite Eop, Nat.add_0_r. reflexivity.
Qed.

(** X10: with [max_retries = N], the retry decorator never reaches the
    [unwrap] panic: there is an attempt number [k <= N] such that attempts
    [0 .. k-1] all failed with a retryable kind and were each followed by
    the linear backoff sleep, attempt [k] is the last one, its result (a
    success, or any error) is what the decorator returns, and if [k < N]
    that result is a success or a non-retryable error. *)
Theorem X10_retry_outcome {I2C R E : Type} (error_kind : E -> ErrorKind)
  (operation : I2C -> I2C * Result R E) (N : nat) (s : I2C) (HN : N < 256) :
  exists k, k <= N
    /\ (forall j, j < k -> fails_retryably error_kind operation (state_after operation j s))
    /\ (k < N -> forall e, snd (operation (state_after operation k s)) = Err e ->
                           retryable_kind (error_kind e) = false)
    /\ retry_operation error_kind operation N s =
         (state_after operation (S k) s, (retry_prefix_from 0 k ++ [Attempted k])%list,
          Some (snd (operation (state_after operation k s)))).
Proof.
  unfold retry_operation.
  exact (retry_loop_shape error_kind operation N HN N 0 s None eq_refl).
Qed.

Lemma state_after_fixed {I2C R E : Type} (operation : I2C -> I2C * Result R E) (s : I2C)
      (r : Result R E) :
  operation s = (s, r) -> forall k, state_after operation k s = s.
Proof.
  intros Hop k. induction k as [|k IH]; [reflexivity|].
  rewrite state_after_S, IH, Hop. reflexivity.
Qed.

(** X11: [RetryingI2c] around the mock.  The mock's errors all have kind
    other, so a write that does not match the next expectation is retried
    until the attempts run out: [N + 1] attempts with the backoff sleeps
    between them, the harness left unchanged, and the mismatch error
    returned; a matching write succeeds on the first attempt and advances
    the cursor once. *)
Theorem X11_retry_mock_write (N : nat) (m : MockI2c) (address : SevenBitAddr)
  (bytes : list u8) (HN : N < 256) :
  (write_matches m address bytes = false ->
     retrying_mock_write N m address bytes =
       (m, (retry_prefix_from 0 N ++ [Attempted N])%list,
        Some (snd (mock_write m address bytes))))
  /\ (write_matches m address bytes = true ->
     retrying_mock_write N m address bytes = (mock_advance m, [Attempted 0], Some (Ok tt))).
Proof.
  unfold retrying_mock_write, retry_operation. split; intros Hm.
  - destruct (mock_write_cases m address bytes) as [[Hm' _] | [_ [msg Hw]]];
      [congruence|].
    set (op := fun i2c => mock_write i2c address bytes).
    assert (Hop : op m = (m, Err (mkMockI2cError msg))) by exact Hw.
    pose proof (state_after_fixed op m _ Hop) as Hfix.
    destruct (retry_loop_run mock_error_kind op N HN N 0 m None ltac:(lia)) as [last' Hrun].
    { intros j Hj. rewrite Hfix. exists (mkMockI2cError msg). rewrite Hop. split; reflexivity. }
    rewrite Nat.sub_0_r in Hrun. rewrite Hrun.
    replace (N - (0 + N)) with 0 by lia. replace (0 + N) with N by lia. rewrite Hfix.
    rewrite (retry_loop_last_retryable mock_error_kind op N m m _ last' Hop eq_refl).
    unfold op. rewrite Hw. reflexivity.
  - destruct (mock_write_cases m address bytes) as [[_ Hw] | [Hm' _]]; [|congruence].
    exact (retry_loop_success mock_error_kind (fun i2c => mock_write i2c address bytes)
             N 0 N m (mock_advance m) tt None Hw).
Qed.

(** ** Setting up and checking the mock *)

(** X12: [expect_write], [expect_read] and [expect_write_read] panic
    (here [None]) exactly when the script already holds 32 expectations or
    one of their byte arguments is longer than 256 bytes; otherwise they
    append the expectation, with the bytes as given, at the end of the
    script and leave the cursor where it was. *)
Theorem X12_expect_capacity (m : MockI2c) (address : SevenBitAddr)
  (data response : list u8) :
  (expect_write m address data = None <->
     (MOCK_OPS_CAP <= length (expected_operations m) \/ MOCK_BUF_CAP < length data)%nat)
  /\ (forall m', expect_write m address data = Some m' ->
        m' = mkMockI2c (expected_operations m ++ [MockWrite address data]) (operation_index m))
  /\ (expect_read m address response = None <->
     (MOCK_OPS_CAP <= length (expected_operations m) \/ MOCK_BUF_CAP < length response)%nat)
  /\ (forall m', expect_read m address response = Some m' ->
        m' = mkMockI2c (expected_operations m ++ [MockRead address response])
               (operation_index m))
  /\ (expect_write_read m address data response = None <->
     (MOCK_OPS_CAP <= length (expected_operations m) \/ MOCK_BUF_CAP < length data
      \/ MOCK_BUF_CAP < length response)%nat)
  /\ (forall m', expect_write_read m address data response = Some m' ->
        m' = mkMockI2c (expected_operations m ++ [MockWriteRead address data response])
               (operation_index m)).
Proof.
  unfold expect_write, expect_read, expect_write_read, mock_bytes, mock_push,
    MOCK_OPS_CAP, MOCK_BUF_CAP.
  destruct (Nat.leb_spec (length data) 256);
    destruct (Nat.leb_spec (length response) 256);
    destruct (Nat.ltb_spec (length (expected_operations m)) 32);
    repeat split; intros; try congruence; try lia.
Qed.

Lemma bytes_eqb_refl (d : list u8) : bytes_eqb d d = true.
Proof. unfold bytes_eqb. destruct (list_eq_dec N.eq_dec d d); congruence. Qed.

Lemma SevenBitAddr_eqb_refl (a : SevenBitAddr) : SevenBitAddr_eqb a a = true.
Proof. apply N.eqb_refl. Qed.

Lemma mock_call_of_next (e : MockOperation) (m : MockI2c) :
  nth_error (expected_operations m) (operation_index m) = Some e ->
  mock_call_of e m = (mock_advance m, true).
Proof.
  intros H.
  assert (Hlt : (length (expected_operations m) <=? operation_index m)%nat = false).
  { apply Nat.leb_gt. apply nth_error_Some. congruence. }
  destruct e as [a resp | a d | a w resp];
    unfold mock_call_of, mock_read, mock_write, mock_write_read;
    rewrite Hlt, H, ?SevenBitAddr_eqb_refl, ?bytes_eqb_refl, ?repeat_length,
      ?Nat.eqb_refl; reflexivity.
Qed.

Lemma mock_replay_from (post pre : list MockOperation) :
  mock_replay post (mkMockI2c (pre ++ post) (length pre)) =
    (mkMockI2c (pre ++ post) (length pre + length post), true).
Proof.
  revert pre. induction post as [|e rest IH]; intros pre.
  - cbn [mock_replay length]. rewrite Nat.add_0_r. reflexivity.
  - cbn [mock_replay].
    rewrite (mock_call_of_next e).
    2:{ simpl. rewrite nth_error_app2 by lia. rewrite Nat.sub_diag. reflexivity. }
    unfold mock_advance. cbn [expected_operations operation_index].
    specialize (IH (pre ++ [e])).
    rewrite <- app_assoc, length_app in IH. cbn [app length] in IH.
    rewrite Nat.add_1_r in IH. rewrite IH. cbn [length].
    f_equal. f_equal. lia.
Qed.

(** X13: replaying the rest of a script against the mock (each remaining
    expectation answered by the call it describes, from the current
    cursor) succeeds on every call, leaves the script unchanged, moves the
    cursor to the end, and [verify_complete] then passes. *)
Theorem X13_mock_replay (pre post : list MockOperation) :
  mock_replay post (mkMockI2c (pre ++ post) (length pre)) =
    (mkMockI2c (pre ++ post) (length (pre ++ post)), true)
  /\ verify_complete (mkMockI2c (pre ++ post) (length (pre ++ post))) = true.
Proof.
  split.
  - rewrite length_app. apply mock_replay_from.
  - apply Nat.eqb_refl.
Qed.

(** X14: once every expectation has been consumed ([verify_complete]
    passes), the mock rejects every further call with its "unexpected"
    error and leaves the harness and the caller's buffer unchanged; a
    [transaction] then fails on its first element, and an empty
    [transaction] succeeds. *)
Theorem X14_mock_exhausted (m : MockI2c) (address : SevenBitAddr)
  (bytes buffer : list u8) (operations : list Operation) :
  verify_complete m = true ->
  mock_read m address buffer =
    (m, buffer, Err (mkMockI2cError "Unexpected read operation"))
  /\ mock_write m address bytes =
    (m, Err (mkMockI2cError "Unexpected write operation"))
  /\ mock_write_read m address bytes buffer =
    (m, buffer, Err (mkMockI2cError "Unexpected write_read operation"))
  /\ mock_transaction m address operations =
    (m, operations,
     match operations with
     | [] => Ok tt
     | OpRead _ :: _ => Err (mkMockI2cError "Unexpected read operation")
     | OpWrite _ :: _ => Err (mkMockI2cError "Unexpected write operation")
     end).
Proof.
  intros H. unfold verify_complete in H. apply Nat.eqb_eq in H.
  assert (Hle : (length (expected_operations m) <=? operation_index m)%nat = true)
    by (apply Nat.leb_le; lia).
  assert (Hr : forall b, mock_read m address b =
                 (m, b, Err (mkMockI2cError "Unexpected read operation")))
    by (intros b; unfold mock_read; rewrite Hle; reflexivity).
  assert (Hw : forall d, mock_write m address d =
                 (m, Err (mkMockI2cError "Unexpected write operation")))
    by (intros d; unfold mock_write; rewrite Hle; reflexivity).
  split; [apply Hr|split; [apply Hw|split]].
  - unfold mock_write_read. rewrite Hle. reflexivity.
  - destruct operations as [|[b|d] rest]; cbn [mock_transaction];
      [reflexivity | rewrite Hr | rewrite Hw]; reflexivity.
Qed.

(** ** Witnesses of the further properties *)

(** Witness of X1 at 0x123 and 0x400. *)
Lemma X1_witness :
  (exists x, TenBitAddr_try_new 0x123%N = Ok x /\ TenBitAddr_get x = 0x123%N)
  /\ TenBitAddr_try_new 0x400%N = Err (TenBitRange 0x400%N).
Proof.
  split.
  - exact (proj1 (X1_tenbit_try_new 0x123%N) ltac:(lia)).
  - exact (proj2 (X1_tenbit_try_new 0x400%N) ltac:(lia)).
Defined.

(** Witness of X2: a data nack is not retried. *)
Lemma X2_witness :
  retryable_kind (kind (mkHubrisI2cError DataNackSent "write")) = false.
Proof.
  exact (proj2 (X2_retryable_codes (mkHubrisI2cError DataNackSent "write"))
           ltac:(simpl; right; right; left; reflexivity)).
Defined.

(** Witness of X3: a bus timeout. *)
Lemma X3_witness :
  (exists d, retry_delay (mkHubrisI2cError BusTimeout "read") = Some d)
  /\ retryable_kind (kind (mkHubrisI2cError BusTimeout "read")) = true.
Proof.
  split.
  - exact (proj1 (proj1 (X3_temporary_delay (mkHubrisI2cError BusTimeout "read"))) eq_refl).
  - exact (proj2 (proj2 (X3_temporary_delay (mkHubrisI2cError BusTimeout "read"))) eq_refl).
Defined.

(** Witness of X5 at address 0x123. *)
Lemma X5_witness :
  tenbit_header_address (addr_high (mkTenBitAddr 0x123%N)) (addr_low (mkTenBitAddr 0x123%N))
  = 0x123%N.
Proof.
  exact (proj2 (proj2 (proj2 (X5_tenbit_header (mkTenBitAddr 0x123%N)))) ltac:(simpl; lia)).
Defined.

(** Witness of X8: a 257-byte payload, and a write phase refused by a busy bus. *)
Lemma X8_witness :
  write_read10 ok_dev (mkTenBitAddr 0x123%N) (repeat 0%N 257) [0; 0]%N tt
    = (tt, [], ([0; 0]%N, Err overflow_error))
  /\ write_read10 busy_dev (mkTenBitAddr 0x123%N) [0xAA%N] [0; 0]%N tt
    = (tt, [CallWrite [0xF2; 0x23; 0xAA]%N],
       ([0; 0]%N, Err (mkHubrisI2cError BusLocked "10bit_write"))).
Proof.
  split.
  - exact (proj1 (X8_tenbit_write_read_phases ok_dev (mkTenBitAddr 0x123%N)
                    (repeat 0%N 257) [0; 0]%N tt) ltac:(rewrite repeat_length; lia)).
  - exact (proj2 (X8_tenbit_write_read_phases busy_dev (mkTenBitAddr 0x123%N)
                    [0xAA%N] [0; 0]%N tt) ltac:(simpl; lia) tt BusLocked eq_refl).
Defined.

(** Witness of X9: a two-byte payload goes through the Core Adapter. *)
Lemma X9_witness :
  ro_write_read ok_dev (mkSevenBitAddr 0x48%N) [1; 2]%N [0]%N tt
  = write_read7 ok_dev (mkSevenBitAddr 0x48%N) [1; 2]%N [0]%N tt.
Proof.
  exact (proj2 (X9_fast_write_read ok_dev (mkSevenBitAddr 0x48%N) [1; 2]%N [0]%N tt) eq_refl).
Defined.

(** Witness of X10 with [max_retries = 2] on an always-busy operation. *)
Lemma X10_witness :
  exists k, k <= 2
    /\ (forall j, j < k -> fails_retryably kind busy_op (state_after busy_op j 0))
    /\ (k < 2 -> forall e, snd (busy_op (state_after busy_op k 0)) = Err e ->
                           retryable_kind (kind e) = false)
    /\ retry_operation kind busy_op 2 0 =
         (state_after busy_op (S k) 0, (retry_prefix_from 0 k ++ [Attempted k])%list,
          Some (snd (busy_op (state_after busy_op k 0)))).
Proof. exact (X10_retry_outcome kind busy_op 2 0 ltac:(lia)). Defined.

(** Witness of X11: a mock expecting [write(0x48, [1])]. *)
Lemma X11_witness :
  retrying_mock_write 2 (mkMockI2c [MockWrite (mkSevenBitAddr 0x48%N) [1%N]] 0)
    (mkSevenBitAddr 0x48%N) [2%N]
  = (mkMockI2c [MockWrite (mkSevenBitAddr 0x48%N) [1%N]] 0,
     [Attempted 0; Slept 10; Attempted 1; Slept 20; Attempted 2],
     Some (Err (mkMockI2cError "Write data mismatch")))
  /\ retrying_mock_write 2 (mkMockI2c [MockWrite (mkSevenBitAddr 0x48%N) [1%N]] 0)
       (mkSevenBitAddr 0x48%N) [1%N]
  = (mkMockI2c [MockWrite (mkSevenBitAddr 0x48%N) [1%N]] 1, [Attempted 0], Some (Ok tt)).
Proof.
  split.
  - refine (eq_trans (proj1 (X11_retry_mock_write 2
              (mkMockI2c [MockWrite (mkSevenBitAddr 0x48%N) [1%N]] 0)
              (mkSevenBitAddr 0x48%N) [2%N] ltac:(lia)) eq_refl) eq_refl).
  - exact (proj2 (X11_retry_mock_write 2
              (mkMockI2c [MockWrite (mkSevenBitAddr 0x48%N) [1%N]] 0)
              (mkSevenBitAddr 0x48%N) [1%N] ltac:(lia)) eq_refl).
Defined.

(** Witness of X12: a 257-byte expectation panics. *)
Lemma X12_witness :
  expect_write mock_new (mkSevenBitAddr 0x48%N) (repeat 0%N 257) = None
  /\ expect_write_read mock_new (mkSevenBitAddr 0x48%N) [1%N] (repeat 0%N 257) = None.
Proof.
  split.
  - exact (proj2 (proj1 (X12_expect_capacity mock_new (mkSevenBitAddr 0x48%N)
                           (repeat 0%N 257) [])) ltac:(right; rewrite repeat_length;
                                                       unfold MOCK_BUF_CAP; lia)).
  - exact (proj2 (proj1 (proj2 (proj2 (proj2 (proj2
             (X12_expect_capacity mock_new (mkSevenBitAddr 0x48%N) [1%N]
                (repeat 0%N 257)))))))
             ltac:(right; right; rewrite repeat_length; unfold MOCK_BUF_CAP; lia)).
Defined.

(** Witness of X14: a mock whose only expectation has been consumed. *)
Lemma X14_witness :
  mock_write (mkMockI2c [MockWrite (mkSevenBitAddr 0x48%N) [1%N]] 1)
    (mkSevenBitAddr 0x48%N) [1%N]
  = (mkMockI2c [MockWrite (mkSevenBitAddr 0x48%N) [1%N]] 1,
     Err (mkMockI2cError "Unexpected write operation")).
Proof.
  exact (proj1 (proj2 (X14_mock_exhausted
           (mkMockI2c [MockWrite (mkSevenBitAddr 0x48%N) [1%N]] 1)
           (mkSevenBitAddr 0x48%N) [1%N] [] [] eq_refl))).
Defined.
